(** * Hedge-pair purchase flow: the BuyPairModal client and the execution engine

    The parts of the development:

    - [JS]: the values the client computes with.  A JavaScript [number] is
      an IEEE-754 binary64 value; it is represented by [spec_float] at
      precision 53 and maximal exponent 1024, with the operators the
      components use ([*], [+], [/], [>=], [>], [<], [||]) and
      [parseFloat].  A text is held as the bytes of its UTF-8 encoding.
    - [BuyPairModal]: the React component of
      [frontend/components/trading/BuyPairModal.tsx] together with what it
      reads from the wallet context, as a transition system over the
      component's state cells.
    - [Engine]: the server side of [/trading/buy-pair], which is not part of
      the sources at hand and is modelled from the specification.
    - [WalletProvider]: the wallet context of
      [frontend/hooks/useWallet.tsx].
    - [Proxy]: the catch-all route that forwards [/api/*] to the backend.
    - [WalletDropdown]: the component through which the wallet is managed.
    - [TraderMonitor]: the scan of the tracked traders. *)

From Stdlib Require Import ZArith List String Ascii Bool Lia QArith.
From Stdlib Require Import Floats.SpecFloat.
Import ListNotations.

Local Open Scope Z_scope.

(* ================================================================= *)
(** ** JavaScript numbers *)

Module JS.

Definition number : Type := spec_float.

Definition prec : Z := 53.
Definition emax : Z := 1024.

Definition NaN : number := S754_nan.
Definition pos_zero : number := S754_zero false.

(** Integer literals of the source text ([0], [2], [5]). *)
Definition of_Z (z : Z) : number := binary_normalize prec emax z 0 false.

(** [x * y] *)
Definition mul (x y : number) : number := SFmul prec emax x y.

(** The relational operators are false as soon as one side is [NaN]. *)
Definition ge (x y : number) : bool :=
  match SFcompare x y with
  | Some Gt | Some Eq => true
  | _ => false
  end.

Definition gt (x y : number) : bool :=
  match SFcompare x y with
  | Some Gt => true
  | _ => false
  end.

Definition lt (x y : number) : bool :=
  match SFcompare x y with
  | Some Lt => true
  | _ => false
  end.

(** ToBoolean on a number: [NaN], [+0] and [-0] are falsy. *)
Definition truthy (x : number) : bool :=
  match x with
  | S754_nan | S754_zero _ => false
  | _ => true
  end.

(** [x || 0] *)
Definition or_zero (x : number) : number :=
  if truthy x then x else pos_zero.

(** *** parseFloat

    [parseFloat] skips leading white space, takes the longest prefix of the
    rest that is a [StrDecimalLiteral] and returns its value rounded to the
    nearest binary64 (ties to even); without such a prefix it returns
    [NaN].  Strings are byte strings here, so only the ASCII white space
    characters are recognised. *)

Definition is_white_space (c : ascii) : bool :=
  let n := nat_of_ascii c in
  (Nat.eqb n 9 || Nat.eqb n 10 || Nat.eqb n 11 || Nat.eqb n 12
   || Nat.eqb n 13 || Nat.eqb n 32)%bool.

Fixpoint trim_start (s : string) : string :=
  match s with
  | String c r => if is_white_space c then trim_start r else s
  | EmptyString => s
  end.

Definition digit_of (c : ascii) : option Z :=
  let n := Z.of_nat (nat_of_ascii c) in
  if ((48 <=? n) && (n <=? 57))%bool then Some (n - 48) else None.

(** The maximal run of decimal digits at the head of [s]: the number read
    (continuing from [acc]), how many digits were read, and the rest. *)
Fixpoint digits (s : string) (acc : Z) (cnt : Z) : Z * Z * string :=
  match s with
  | String c r =>
      match digit_of c with
      | Some d => digits r (10 * acc + d) (cnt + 1)
      | None => (acc, cnt, s)
      end
  | EmptyString => (acc, cnt, s)
  end.

(** Value of the [ExponentPart] at the head of [s], [0] when there is none
    (an [e] that no digit follows is not part of the literal). *)
Definition exponent_part (s : string) : Z :=
  match s with
  | String c r =>
      if (Ascii.eqb c "e" || Ascii.eqb c "E")%bool then
        let '(neg, r') :=
          match r with
          | String "+"%char r1 => (false, r1)
          | String "-"%char r1 => (true, r1)
          | _ => (false, r)
          end in
        let '(v, n, _) := digits r' 0 0 in
        if n =? 0 then 0 else if neg then - v else v
      else 0
  | EmptyString => 0
  end.

Variant literal : Type :=
  | LitInfinity
  | LitDecimal (m : Z) (e : Z).   (* m * 10^e *)

Definition str_unsigned_decimal_literal (s : string) : option literal :=
  if String.prefix "Infinity" s then Some LitInfinity
  else
    let '(i, ni, r) := digits s 0 0 in
    match r with
    | String "."%char r1 =>
        let '(m, nf, r2) := digits r1 i 0 in
        if ((ni =? 0) && (nf =? 0))%bool then None
        else Some (LitDecimal m (exponent_part r2 - nf))
    | _ => if ni =? 0 then None else Some (LitDecimal i (exponent_part r))
    end.

(** [num / den], for positive integers, rounded once to binary64. *)
Definition round_ratio (sgn : bool) (num den : Z) : number :=
  let '(q, e, l) := SFdiv_core_binary prec emax num 0 den 0 in
  binary_round_aux prec emax sgn q e l.

Definition literal_value (sgn : bool) (l : literal) : number :=
  match l with
  | LitInfinity => S754_infinity sgn
  | LitDecimal m e =>
      if m =? 0 then S754_zero sgn
      else if 0 <=? e then round_ratio sgn (m * 10 ^ e) 1
      else round_ratio sgn m (10 ^ (- e))
  end.

Definition parseFloat (s : string) : number :=
  let t := trim_start s in
  let '(sgn, u) :=
    match t with
    | String "-"%char r => (true, r)
    | String "+"%char r => (false, r)
    | _ => (false, t)
    end in
  match str_unsigned_decimal_literal u with
  | Some l => literal_value sgn l
  | None => NaN
  end.

(** *** String length

    A text is held as the bytes of its UTF-8 encoding, while
    [String.prototype.length] counts UTF-16 code units: a character of one
    to three bytes is one code unit, a character of four bytes is a
    surrogate pair.  So a byte that continues a character counts nothing,
    the first byte of a four-byte character counts two, and every other
    byte one. *)
Definition code_units (c : ascii) : nat :=
  let n := nat_of_ascii c in
  if (Nat.leb 128 n && Nat.ltb n 192)%bool then 0%nat
  else if Nat.leb 240 n then 2%nat
  else 1%nat.

Fixpoint utf16_length (s : string) : nat :=
  match s with
  | EmptyString => 0%nat
  | String c r => (code_units c + utf16_length r)%nat
  end.

End JS.

(* ================================================================= *)
(** ** The BuyPairModal component *)

Module BuyPairModal.
Import JS.

Local Open Scope string_scope.

(** *** Data *)

Variant Position : Type := YES | NO.

(** [types/portfolio.ts], restricted to the fields the modal sends. *)
Module Portfolio.
Record t : Type := {
  pair_id : string;
  target_market_id : string;
  target_position : Position;
  cover_market_id : string;
  cover_position : Position
}.
End Portfolio.

(** [useWallet.tsx] *)
Record WalletBalances : Type := {
  pol : number;
  usdc_e : number
}.

Record WalletStatus : Type := {
  exists_ : bool;
  address : option string;
  unlocked : bool;
  balances : option WalletBalances;
  approvals_set : bool
}.

(** [type Step = 'unlock' | 'input' | 'executing' | 'success' | 'error'] *)
Module Step.
Variant t : Type := unlock | input | executing | success | error.
End Step.

(** [interface TradeResult]; optional fields are options. *)
Module Trade.
Record Leg : Type := {
  split_tx : option string;
  clob_order_id : option string;
  error : option string
}.
Record Result : Type := {
  success : bool;
  target : Leg;
  cover : Leg;
  total_spent : number;
  final_balances : WalletBalances;
  warnings : option (list string)
}.
End Trade.

(** The JSON body of the POST to [/trading/buy-pair]. *)
Record BuyPairRequest : Type := {
  pair_id : string;
  target_market_id : string;
  target_position : Position;
  cover_market_id : string;
  cover_position : Position;
  amount_per_position : number;
  skip_clob_sell : bool
}.

(** A value caught by [catch (e)]: an [Error] carrying a message, or
    anything else. *)
Variant Thrown : Type :=
  | ErrorObject (message : string)
  | NotAnError.

(** [e instanceof Error ? e.message : fallback] *)
Definition message_or (fallback : string) (e : Thrown) : string :=
  match e with
  | ErrorObject m => m
  | NotAnError => fallback
  end.

(** [detail || fallback] on an optional string: absent and empty are falsy. *)
Definition detail_or (fallback : string) (detail : option string) : string :=
  match detail with
  | Some d => if String.eqb d "" then fallback else d
  | None => fallback
  end.

(** What the awaited part of [handleBuy] can observe: [fetch] or
    [res.json()] rejects; the response is not [ok] and its body carries a
    [detail] string or none; or it is [ok] and its body is read as the
    [TradeResult] the code types it as.  The body is stored unchecked; a
    body that lacks fields of the interface is not covered here. *)
Variant BuyPairResponse : Type :=
  | Rejected (e : Thrown)
  | HttpError (detail : option string)
  | HttpOk (data : Trade.Result).

(** How a [refresh] of the wallet provider ends for those who read the
    wallet context: its request failed and the status is kept, or it was
    answered ok and the body, a status or [null], is stored as the status. *)
Variant Refresh : Type :=
  | Failed
  | Delivered (data : option WalletStatus).

(** What [await unlock(password)] can observe: it throws, or it returns
    after its own [await refresh()]. *)
Variant UnlockResponse : Type :=
  | UnlockThrew (e : Thrown)
  | UnlockDone (refreshed : Refresh).

(** *** State

    The [useState] cells of the component, the two values it reads from the
    wallet context, and the network: every request sent to
    [/trading/buy-pair] (latest first) and the number of awaited calls that
    have not settled yet. *)
Record State : Type := {
  amount : string;
  step : Step.t;
  result : option Trade.Result;
  error : option string;
  executionStep : string;
  password : string;
  unlocking : bool;
  unlockError : option string;
  status : option WalletStatus;
  walletLoading : bool;
  requests : list BuyPairRequest;
  trades_in_flight : nat;
  unlocks_in_flight : nat
}.

Definition setAmount (v : string) (s : State) : State :=
  {| amount := v; step := step s; result := result s; error := error s;
     executionStep := executionStep s; password := password s;
     unlocking := unlocking s; unlockError := unlockError s;
     status := status s; walletLoading := walletLoading s;
     requests := requests s; trades_in_flight := trades_in_flight s;
     unlocks_in_flight := unlocks_in_flight s |}.

Definition setStep (v : Step.t) (s : State) : State :=
  {| amount := amount s; step := v; result := result s; error := error s;
     executionStep := executionStep s; password := password s;
     unlocking := unlocking s; unlockError := unlockError s;
     status := status s; walletLoading := walletLoading s;
     requests := requests s; trades_in_flight := trades_in_flight s;
     unlocks_in_flight := unlocks_in_flight s |}.

Definition setResult (v : option Trade.Result) (s : State) : State :=
  {| amount := amount s; step := step s; result := v; error := error s;
     executionStep := executionStep s; password := password s;
     unlocking := unlocking s; unlockError := unlockError s;
     status := status s; walletLoading := walletLoading s;
     requests := requests s; trades_in_flight := trades_in_flight s;
     unlocks_in_flight := unlocks_in_flight s |}.

Definition setError (v : option string) (s : State) : State :=
  {| amount := amount s; step := step s; result := result s; error := v;
     executionStep := executionStep s; password := password s;
     unlocking := unlocking s; unlockError := unlockError s;
     status := status s; walletLoading := walletLoading s;
     requests := requests s; trades_in_flight := trades_in_flight s;
     unlocks_in_flight := unlocks_in_flight s |}.

Definition setExecutionStep (v : string) (s : State) : State :=
  {| amount := amount s; step := step s; result := result s; error := error s;
     executionStep := v; password := password s;
     unlocking := unlocking s; unlockError := unlockError s;
     status := status s; walletLoading := walletLoading s;
     requests := requests s; trades_in_flight := trades_in_flight s;
     unlocks_in_flight := unlocks_in_flight s |}.

Definition setPassword (v : string) (s : State) : State :=
  {| amount := amount s; step := step s; result := result s; error := error s;
     executionStep := executionStep s; password := v;
     unlocking := unlocking s; unlockError := unlockError s;
     status := status s; walletLoading := walletLoading s;
     requests := requests s; trades_in_flight := trades_in_flight s;
     unlocks_in_flight := unlocks_in_flight s |}.

Definition setUnlocking (v : bool) (s : State) : State :=
  {| amount := amount s; step := step s; result := result s; error := error s;
     executionStep := executionStep s; password := password s;
     unlocking := v; unlockError := unlockError s;
     status := status s; walletLoading := walletLoading s;
     requests := requests s; trades_in_flight := trades_in_flight s;
     unlocks_in_flight := unlocks_in_flight s |}.

Definition setUnlockError (v : option string) (s : State) : State :=
  {| amount := amount s; step := step s; result := result s; error := error s;
     executionStep := executionStep s; password := password s;
     unlocking := unlocking s; unlockError := v;
     status := status s; walletLoading := walletLoading s;
     requests := requests s; trades_in_flight := trades_in_flight s;
     unlocks_in_flight := unlocks_in_flight s |}.

(** The wallet provider's [setStatus] and [setLoading]. *)
Definition setStatus (v : option WalletStatus) (s : State) : State :=
  {| amount := amount s; step := step s; result := result s; error := error s;
     executionStep := executionStep s; password := password s;
     unlocking := unlocking s; unlockError := unlockError s;
     status := v; walletLoading := walletLoading s;
     requests := requests s; trades_in_flight := trades_in_flight s;
     unlocks_in_flight := unlocks_in_flight s |}.

Definition setLoading (v : bool) (s : State) : State :=
  {| amount := amount s; step := step s; result := result s; error := error s;
     executionStep := executionStep s; password := password s;
     unlocking := unlocking s; unlockError := unlockError s;
     status := status s; walletLoading := v;
     requests := requests s; trades_in_flight := trades_in_flight s;
     unlocks_in_flight := unlocks_in_flight s |}.

(** [fetch(`${apiBase}/trading/buy-pair`, { method: 'POST', body })]: the
    request leaves and its answer is awaited. *)
Definition fetch_buy_pair (body : BuyPairRequest) (s : State) : State :=
  {| amount := amount s; step := step s; result := result s; error := error s;
     executionStep := executionStep s; password := password s;
     unlocking := unlocking s; unlockError := unlockError s;
     status := status s; walletLoading := walletLoading s;
     requests := body :: requests s;
     trades_in_flight := S (trades_in_flight s);
     unlocks_in_flight := unlocks_in_flight s |}.

Definition trade_settles (s : State) : State :=
  {| amount := amount s; step := step s; result := result s; error := error s;
     executionStep := executionStep s; password := password s;
     unlocking := unlocking s; unlockError := unlockError s;
     status := status s; walletLoading := walletLoading s;
     requests := requests s;
     trades_in_flight := Nat.pred (trades_in_flight s);
     unlocks_in_flight := unlocks_in_flight s |}.

(** [unlock(password)] of the wallet context is called and awaited. *)
Definition call_unlock (s : State) : State :=
  {| amount := amount s; step := step s; result := result s; error := error s;
     executionStep := executionStep s; password := password s;
     unlocking := unlocking s; unlockError := unlockError s;
     status := status s; walletLoading := walletLoading s;
     requests := requests s; trades_in_flight := trades_in_flight s;
     unlocks_in_flight := S (unlocks_in_flight s) |}.

Definition unlock_settles (s : State) : State :=
  {| amount := amount s; step := step s; result := result s; error := error s;
     executionStep := executionStep s; password := password s;
     unlocking := unlocking s; unlockError := unlockError s;
     status := status s; walletLoading := walletLoading s;
     requests := requests s; trades_in_flight := trades_in_flight s;
     unlocks_in_flight := Nat.pred (unlocks_in_flight s) |}.

(** [useState('10')], [useState(() => 'input')], ...; the wallet provider
    starts with no status and [loading = true]. *)
Definition initial : State :=
  {| amount := "10"; step := Step.input; result := None; error := None;
     executionStep := ""; password := ""; unlocking := false;
     unlockError := None; status := None; walletLoading := true;
     requests := []; trades_in_flight := 0%nat; unlocks_in_flight := 0%nat |}.

(** *** Values derived at each render *)

(** [!walletLoading && !status?.unlocked] *)
Definition needsUnlock (s : State) : bool :=
  negb (walletLoading s)
  && negb match status s with Some st => unlocked st | None => false end.

Definition MIN_AMOUNT : number := of_Z 5.

(** [parseFloat(amount) || 0] *)
Definition amountNum (s : State) : number := or_zero (parseFloat (amount s)).

(** [amountNum * 2] *)
Definition totalCost (s : State) : number := mul (amountNum s) (of_Z 2).

(** [status?.balances?.usdc_e || 0] *)
Definition balanceUsdc (s : State) : number :=
  match status s with
  | Some st =>
      match balances st with
      | Some b => or_zero (usdc_e b)
      | None => pos_zero
      end
  | None => pos_zero
  end.

Definition hasSufficientBalance (s : State) : bool :=
  ge (balanceUsdc s) (totalCost s).

Definition meetsMinimum (s : State) : bool := ge (amountNum s) MIN_AMOUNT.

(** *** Handlers

    An [async] handler runs up to its [await] when it is called and resumes
    when the awaited promise settles; in between the component handles other
    events.  Each such handler is therefore two functions: the part before
    the [await], and the continuation applied to what the promise settled
    with.  Every setter acts on the state current when it runs. *)

(** The object given to [JSON.stringify] in [handleBuy]; [amountNum] is
    the value of the render the handler belongs to. *)
Definition requestBody (p : Portfolio.t) (s : State) : BuyPairRequest :=
  {| pair_id := Portfolio.pair_id p;
     target_market_id := Portfolio.target_market_id p;
     target_position := Portfolio.target_position p;
     cover_market_id := Portfolio.cover_market_id p;
     cover_position := Portfolio.cover_position p;
     amount_per_position := amountNum s;
     skip_clob_sell := false |}.

(** [handleBuy], up to [await fetch(...)]. *)
Definition handleBuy (p : Portfolio.t) (s : State) : State :=
  if negb (hasSufficientBalance s) then
    setError (Some "Insufficient USDC.e balance") s
  else
    let s1 := setStep Step.executing s in
    let s2 := setError None s1 in
    let s3 := setExecutionStep "Splitting target position..." s2 in
    fetch_buy_pair (requestBody p s) s3.

(** The [catch] block of [handleBuy]. *)
Definition handleBuy_catch (e : Thrown) (s : State) : State :=
  let s := setError (Some (message_or "Trade failed" e)) s in
  setStep Step.error s.

(** [handleBuy], from the settled [fetch] on. *)
Definition handleBuy_resume (r : BuyPairResponse) (s : State) : State :=
  match r with
  | Rejected e => handleBuy_catch e s
  | HttpError detail =>
      handleBuy_catch (ErrorObject (detail_or "Trade failed" detail)) s
  | HttpOk data =>
      let s := setResult (Some data) s in
      setStep (if Trade.success data then Step.success else Step.error) s
  end.

(** [refresh] of the wallet provider, from its settled request on:
    [setStatus(data)] when the request was answered ok, and
    [setLoading(false)] in either case. *)
Definition refresh_resume (r : Refresh) (s : State) : State :=
  let s := match r with
           | Delivered data => setStatus data s
           | Failed => s
           end in
  setLoading false s.

(** [handleUnlock], up to [await unlock(password)]. *)
Definition handleUnlock (s : State) : State :=
  if String.eqb (password s) "" then s
  else
    let s := setUnlocking true s in
    let s := setUnlockError None s in
    call_unlock s.

(** [handleUnlock], from the settled [unlock] on. *)
Definition handleUnlock_resume (r : UnlockResponse) (s : State) : State :=
  match r with
  | UnlockDone refreshed =>
      let s := refresh_resume refreshed s in
      let s := setPassword "" s in
      let s := setStep Step.input s in
      setUnlocking false s
  | UnlockThrew e =>
      let s := setUnlockError (Some (message_or "Failed to unlock" e)) s in
      setUnlocking false s
  end.

(** The [onClick] of the Try Again button. *)
Definition tryAgain (s : State) : State :=
  setError None (setStep Step.input s).

(** *** What is on screen

    The body of the modal is a sequence of [{condition && ...}] blocks; at
    most one condition holds at a time.  A view records which block is
    rendered and the attributes of it that decide what the user can do and
    read. *)

(** [result.warnings?.length] as a condition. *)
Definition hasWarnings (r : Trade.Result) : bool :=
  match Trade.warnings r with
  | Some (_ :: _) => true
  | _ => false
  end.

Variant View : Type :=
  | LoadingWallet
  | UnlockForm (unlock_disabled : bool)
  | InputForm (confirm_disabled : bool) (minimum_hint : bool)
              (balance_ok : bool) (message : option string)
  | ExecutingPanel (progress : string)
  | SuccessPanel (headline : string) (shown_warnings : list string)
  | ErrorPanel (headline : string) (message : option string)
  | Blank.

Definition render (s : State) : View :=
  match step s with
  | Step.input =>
      if walletLoading s then LoadingWallet
      else if needsUnlock s then
        UnlockForm (unlocking s || String.eqb (password s) "")
      else
        InputForm (negb (hasSufficientBalance s) || negb (meetsMinimum s))
                  (negb (meetsMinimum s) && gt (amountNum s) (of_Z 0))
                  (hasSufficientBalance s)
                  (error s)
  | Step.executing => ExecutingPanel (executionStep s)
  | Step.success =>
      match result s with
      | Some r =>
          SuccessPanel
            (if hasWarnings r then "Partial Success" else "Purchase Complete")
            (match Trade.warnings r with Some w => w | None => [] end)
      | None => Blank
      end
  | Step.error => ErrorPanel "Trade Failed" (error s)
  | Step.unlock => Blank
  end.

(** *** Events

    What can happen to a mounted modal: the user acts on a control that is
    on screen (a disabled button does not react), an awaited call settles,
    or the wallet provider's periodic [refresh] settles. *)
Variant Event : Type :=
  | ChangeAmount (v : string)
  | ChangePassword (v : string)
  | ClickConfirm
  | ClickUnlock
  | PressEnter
  | ClickTryAgain
  | TradeSettled (r : BuyPairResponse)
  | UnlockSettled (r : UnlockResponse)
  | WalletRefreshed (r : Refresh).

Definition dispatch (p : Portfolio.t) (s : State) (e : Event) : State :=
  match e with
  | ChangeAmount v =>
      match render s with
      | InputForm _ _ _ _ => setAmount v s
      | _ => s
      end
  | ChangePassword v =>
      match render s with
      | UnlockForm _ => setPassword v s
      | _ => s
      end
  | ClickConfirm =>
      match render s with
      | InputForm false _ _ _ => handleBuy p s
      | _ => s
      end
  | ClickUnlock =>
      match render s with
      | UnlockForm false => handleUnlock s
      | _ => s
      end
  | PressEnter =>
      match render s with
      | UnlockForm _ => handleUnlock s
      | _ => s
      end
  | ClickTryAgain =>
      match render s with
      | ErrorPanel _ _ => tryAgain s
      | _ => s
      end
  | TradeSettled r =>
      match trades_in_flight s with
      | O => s
      | S _ => handleBuy_resume r (trade_settles s)
      end
  | UnlockSettled r =>
      match unlocks_in_flight s with
      | O => s
      | S _ => handleUnlock_resume r (unlock_settles s)
      end
  | WalletRefreshed r => refresh_resume r s
  end.

Definition run (p : Portfolio.t) (s : State) (es : list Event) : State :=
  fold_left (dispatch p) es s.

(** The Confirm Purchase button is on screen and enabled. *)
Definition confirm_enabled (s : State) : bool :=
  match render s with
  | InputForm false _ _ _ => true
  | _ => false
  end.

(** *** Sample data *)

Definition sample_portfolio : Portfolio.t :=
  {| Portfolio.pair_id := "pair-1";
     Portfolio.target_market_id := "market-a";
     Portfolio.target_position := YES;
     Portfolio.cover_market_id := "market-b";
     Portfolio.cover_position := NO |}.

(** A wallet status as [/wallet/status] reports it. *)
Definition wallet (is_unlocked : bool) (usdc : string) : WalletStatus :=
  {| exists_ := true; address := Some "0x51"; unlocked := is_unlocked;
     balances := Some {| pol := parseFloat "1.5"; usdc_e := parseFloat usdc |};
     approvals_set := true |}.

(** The modal once the wallet (unlocked, holding [usdc]) has loaded and the
    user has typed [typed] into the amount field. *)
Definition ready (usdc typed : string) : State :=
  run sample_portfolio initial
      [WalletRefreshed (Delivered (Some (wallet true usdc))); ChangeAmount typed].

Definition sample_leg (tx order err : option string) : Trade.Leg :=
  {| Trade.split_tx := tx; Trade.clob_order_id := order; Trade.error := err |}.

Definition sample_result (ok : bool) (t c : Trade.Leg) (spent usdc : string)
    (w : option (list string)) : Trade.Result :=
  {| Trade.success := ok; Trade.target := t; Trade.cover := c;
     Trade.total_spent := parseFloat spent;
     Trade.final_balances := {| pol := parseFloat "1.5"; usdc_e := parseFloat usdc |};
     Trade.warnings := w |}.

(** Two presses of Enter in the password field start two unlock calls; the
    first one settles, the form appears and the user confirms a purchase
    while the second unlock call is still awaited. *)
Definition two_unlocks_pending : State :=
  run sample_portfolio initial
      [WalletRefreshed (Delivered (Some (wallet false "100")));
       ChangePassword "hunter2";
       PressEnter;
       PressEnter].

Definition confirmed_with_unlock_pending : State :=
  run sample_portfolio two_unlocks_pending
      [UnlockSettled (UnlockDone (Delivered (Some (wallet true "100"))));
       ClickConfirm].

End BuyPairModal.

(* ================================================================= *)
(** ** The execution engine behind [/trading/buy-pair] *)

Module Engine.

Local Open Scope Q_scope.
Local Open Scope string_scope.

(** Modelled from the spec: the outcome position of a leg ([YES] | [NO],
    section 3). *)
Variant Position : Type := YES | NO.

(** Modelled from the spec: after a split the trader keeps the wanted
    outcome token and sells the complementary one (section 4.2). *)
Definition complement (p : Position) : Position :=
  match p with YES => NO | NO => YES end.

Definition side_name (p : Position) : string :=
  match p with YES => "YES" | NO => "NO" end.

(** Modelled from the spec: one leg of a [HedgePair] (section 3).  The
    engine's source is not available; decimals (amounts, prices) are
    rationals. *)
Record Leg : Type := {
  market_id : string;
  position : Position;
  question : string;
  price : Q
}.

(** Modelled from the spec: [HedgePair] (section 3). *)
Record HedgePair : Type := {
  pair_id : string;
  target : Leg;
  cover : Leg
}.

(** Modelled from the spec: [ExecutionRequest] (section 3) with the field
    names of the request of section 6. *)
Record ExecutionRequest : Type := {
  request_pair_id : string;
  target_market_id : string;
  target_position : Position;
  cover_market_id : string;
  cover_position : Position;
  amount_per_position : Q;
  skip_clob_sell : bool
}.

(** Modelled from the spec: [LegOutcome] (sections 3 and 6). *)
Record LegOutcome : Type := {
  split_tx : option string;
  clob_order_id : option string;
  error : option string
}.

(** Modelled from the spec: the balances of the response (section 6),
    gas currency and settlement currency. *)
Record Balances : Type := {
  pol : Q;
  usdc_e : Q
}.

(** Modelled from the spec: [TradeResult] (sections 3 and 6). *)
Record TradeResult : Type := {
  success : bool;
  target_outcome : LegOutcome;
  cover_outcome : LegOutcome;
  total_spent : Q;
  final_balances : Balances;
  warnings : list string
}.

(** Modelled from the spec: the results of the Balance/Precondition
    Validator (section 4.1) and the error taxonomy's Precondition class
    (section 7). *)
Variant Precondition : Type := ok | insufficient_balance | below_minimum.

(** Modelled from the spec: the exchange's minimum order size, "a fixed
    constant, e.g. 5 units" (section 4.1). *)
Definition minimum_order_size : Q := 5.

(** Modelled from the spec: the validator of section 4.1, with the order of
    section 8 (minimum check before balance check). *)
Definition validate (balance amount : Q) : Precondition :=
  if negb (Qle_bool minimum_order_size amount) then below_minimum
  else if negb (Qle_bool (2 * amount) balance) then insufficient_balance
  else ok.

(** Modelled from the spec: the calls the engine makes to its
    collaborators (section 6), logged in order. *)
Variant Call : Type :=
  | ReadBalances
  | Split (market : string) (amount : Q)
  | Sell (market : string) (outcome : Position) (amount : Q).

Section Execution.

(** Modelled from the spec: the collaborator interfaces of section 6.  The
    state of the chain, the order book and the account is a [World]; every
    call answers and moves it on.  [split(market, amount)] answers with a
    transaction identifier or an error, [sell(market, outcome, amount)]
    with an order identifier or an error. *)
Variable World : Type.
Variable balances : World -> Balances * World.
Variable split : string -> Q -> World -> (string + string) * World.
Variable sell : string -> Position -> Q -> World -> (string + string) * World.

(** Computations that call the collaborators and log the calls. *)
Definition M (A : Type) : Type := World * list Call -> A * (World * list Call).

Definition ret {A : Type} (a : A) : M A := fun st => (a, st).

Definition bind {A B : Type} (c : M A) (k : A -> M B) : M B :=
  fun st => let '(a, st') := c st in k a st'.

Notation "x <- c ;; k" := (bind c (fun x => k))
  (at level 61, c at next level, right associativity).

Definition read_balances : M Balances :=
  fun '(w, log) =>
    let '(b, w') := balances w in (b, (w', (log ++ [ReadBalances])%list)).

Definition do_split (market : string) (amount : Q) : M (string + string) :=
  fun '(w, log) =>
    let '(r, w') := split market amount w in (r, (w', (log ++ [Split market amount])%list)).

Definition do_sell (market : string) (outcome : Position) (amount : Q)
  : M (string + string) :=
  fun '(w, log) =>
    let '(r, w') := sell market outcome amount w in
    (r, (w', (log ++ [Sell market outcome amount])%list)).

(** Modelled from the spec: the Leg Executor of section 4.2.  Split, then
    (unless skipped) sell the complementary token; each step is attempted
    once; a failed split ends the leg; a failed sell keeps the split's
    transaction identifier. *)
Definition execute_leg (market : string) (pos : Position) (amount : Q)
    (skip : bool) : M LegOutcome :=
  r <- do_split market amount ;;
  match r with
  | inr e =>
      ret {| split_tx := None; clob_order_id := None; error := Some e |}
  | inl tx =>
      if skip then
        ret {| split_tx := Some tx; clob_order_id := None; error := None |}
      else
        r' <- do_sell market (complement pos) amount ;;
        match r' with
        | inl order =>
            ret {| split_tx := Some tx; clob_order_id := Some order;
                   error := None |}
        | inr e =>
            ret {| split_tx := Some tx; clob_order_id := None;
                   error := Some e |}
        end
  end.

(** Modelled from the spec: a leg has committed its amount once its split
    is confirmed, whatever its sell does (section 4.3). *)
Definition committed (amount : Q) (o : LegOutcome) : Q :=
  match split_tx o with
  | Some _ => amount
  | None => 0
  end.

Definition absent {A : Type} (o : option A) : bool :=
  match o with Some _ => false | None => true end.

(** Modelled from the spec: one warning for a leg whose split succeeded
    and whose sell failed or was skipped (section 4.4). *)
Definition unhedged_warning (leg : string) (pos : Position) (o : LegOutcome)
  : list string :=
  if negb (absent (split_tx o)) && absent (clob_order_id o) then
    ["position not fully hedged - you are holding unsold "
       ++ side_name (complement pos) ++ " tokens for " ++ leg]
  else [].

(** Modelled from the spec: the Result Aggregator of section 4.4 and the
    total of section 4.3.  Its contract gives it the two [LegOutcome]s.  The
    informational warning section 4.4 mentions for sells realized at prices
    other than the quoted ones has nothing to be computed from: neither a
    [LegOutcome] (section 3) nor the answer of [sell] (section 6) carries a
    realized price; the warnings are those about unsold tokens. *)
Definition aggregate (req : ExecutionRequest) (t c : LegOutcome)
    (after : Balances) : TradeResult :=
  {| success := absent (error t) && absent (error c);
     target_outcome := t;
     cover_outcome := c;
     total_spent :=
       committed (amount_per_position req) t
       + committed (amount_per_position req) c;
     final_balances := after;
     warnings :=
       (unhedged_warning "target" (target_position req) t
        ++ unhedged_warning "cover" (cover_position req) c)%list |}.

(** Modelled from the spec: what a call of the engine returns, a
    Precondition rejection (section 7) or a [TradeResult]. *)
Variant Response : Type :=
  | Rejected (why : Precondition)
  | Executed (r : TradeResult).

(** Modelled from the spec: the control flow of section 2 and the Pair
    Orchestrator of section 4.3.  The balance is read when the call
    arrives; the validator decides; the target leg is attempted, then the
    cover leg, whatever the target's outcome; the balances are read again
    and the result is aggregated.  The pair is the input context of
    section 6 (question texts and quoted prices, for display); execution
    reads the request only. *)
Definition execute (pair : HedgePair) (req : ExecutionRequest) : M Response :=
  b <- read_balances ;;
  match validate (usdc_e b) (amount_per_position req) with
  | ok =>
      t <- execute_leg (target_market_id req) (target_position req)
             (amount_per_position req) (skip_clob_sell req) ;;
      c <- execute_leg (cover_market_id req) (cover_position req)
             (amount_per_position req) (skip_clob_sell req) ;;
      after <- read_balances ;;
      ret (Executed (aggregate req t c after))
  | why => ret (Rejected why)
  end.

End Execution.

(** *** Sample collaborators

    A world that only counts the calls made.  The account holds 100; the
    split of market [failing] fails with "gas error", every other split and
    every sell goes through. *)
Definition sample_balances (w : nat) : Balances * nat :=
  ({| pol := 3 # 2; usdc_e := 100 |}, S w).

Definition sample_split (failing : string) (market : string) (amount : Q)
    (w : nat) : (string + string) * nat :=
  (if String.eqb market failing then inr "gas error" else inl ("tx-" ++ market),
   S w).

Definition sample_sell (market : string) (outcome : Position) (amount : Q)
    (w : nat) : (string + string) * nat :=
  (inl ("order-" ++ market), S w).

Definition sample_pair : HedgePair :=
  {| pair_id := "pair-1";
     target := {| market_id := "market-a"; position := YES;
                  question := "Will A happen?"; price := 2 # 5 |};
     cover := {| market_id := "market-b"; position := NO;
                 question := "Will B happen?"; price := 1 # 2 |} |}.

Definition sample_request : ExecutionRequest :=
  {| request_pair_id := "pair-1";
     target_market_id := "market-a"; target_position := YES;
     cover_market_id := "market-b"; cover_position := NO;
     amount_per_position := 10;
     skip_clob_sell := false |}.

End Engine.

(* ================================================================= *)
(** ** The wallet provider *)

(** [WalletProvider] of [frontend/hooks/useWallet.tsx]: the three state
    cells, [refresh], and the five operations it hands to its consumers. *)
Module WalletProvider.

Local Open Scope string_scope.

(** [getApiBaseUrl] of [frontend/config/api-config.ts]. *)
Definition getApiBaseUrl : string := "/api".

Record State : Type := {
  status : option BuyPairModal.WalletStatus;
  loading : bool;
  error : option string
}.

Definition setStatus (v : option BuyPairModal.WalletStatus) (s : State) : State :=
  {| status := v; loading := loading s; error := error s |}.

Definition setLoading (v : bool) (s : State) : State :=
  {| status := status s; loading := v; error := error s |}.

Definition setError (v : option string) (s : State) : State :=
  {| status := status s; loading := loading s; error := v |}.

(** [useState(null)], [useState(true)], [useState(null)]. *)
Definition initial : State :=
  {| status := None; loading := true; error := None |}.

(** What [refresh] can observe of its request to [/wallet/status]: [fetch]
    or [res.json()] rejects, the response is not [ok], or it is [ok] and
    its body is read: a status, or [null], which the [status] cell admits
    and [setStatus(data)] stores unchecked. *)
Variant StatusResponse : Type :=
  | StatusThrew (e : BuyPairModal.Thrown)
  | StatusNotOk
  | StatusOk (data : option BuyPairModal.WalletStatus).

(** The [catch] block of [refresh]. *)
Definition refresh_catch (e : BuyPairModal.Thrown) (s : State) : State :=
  setError (Some (BuyPairModal.message_or "Unknown error" e)) s.

(** [refresh], from its settled request on. *)
Definition refresh_resume (r : StatusResponse) (s : State) : State :=
  let s :=
    match r with
    | StatusOk data => setError None (setStatus data s)
    | StatusNotOk =>
        refresh_catch (BuyPairModal.ErrorObject "Failed to fetch wallet status") s
    | StatusThrew e => refresh_catch e s
    end in
  setLoading false s.

(** The provider after the [refresh] calls made so far (on mount, every
    30 seconds, after operations) have settled with [rs], in this order. *)
Definition after_refreshes (rs : list StatusResponse) : State :=
  fold_left (fun s r => refresh_resume r s) rs initial.

(** What an operation can observe of its POST: [fetch] (or reading the
    body) rejects, the response is not [ok] and carries [detail] or none,
    or it is [ok], with the [address] field of its body if there is one. *)
Variant PostResponse : Type :=
  | PostThrew (e : BuyPairModal.Thrown)
  | PostNotOk (detail : option string)
  | PostOk (address : option string).

(** How an operation ends for the consumer that awaits it: it throws
    before any refresh, or it calls [refresh], awaits it and returns. *)
Variant Completion (A : Type) : Type :=
  | Throws (e : BuyPairModal.Thrown)
  | RefreshesAndReturns (a : A).
Arguments Throws {A} e.
Arguments RefreshesAndReturns {A} a.

(** The shape shared by [generate], [importKey], [unlock] and
    [approveContracts]:
    [if (!res.ok) throw new Error(err.detail || fallback)]. *)
Definition checked (fallback : string) (r : PostResponse)
  : Completion (option string) :=
  match r with
  | PostThrew e => Throws e
  | PostNotOk detail =>
      Throws (BuyPairModal.ErrorObject (BuyPairModal.detail_or fallback detail))
  | PostOk address => RefreshesAndReturns address
  end.

(** [generate] and [importKey] return [data.address]. *)
Definition generate (r : PostResponse) : Completion (option string) :=
  checked "Failed to generate wallet" r.

Definition importKey (r : PostResponse) : Completion (option string) :=
  checked "Failed to import wallet" r.

Definition forget {A : Type} (c : Completion A) : Completion unit :=
  match c with
  | Throws e => Throws e
  | RefreshesAndReturns _ => RefreshesAndReturns tt
  end.

Definition unlock (r : PostResponse) : Completion unit :=
  forget (checked "Invalid password" r).

Definition approveContracts (r : PostResponse) : Completion unit :=
  forget (checked "Failed to approve contracts" r).

(** [lock] does not look at the response. *)
Definition lock (r : PostResponse) : Completion unit :=
  match r with
  | PostThrew e => Throws e
  | PostNotOk _ | PostOk _ => RefreshesAndReturns tt
  end.

(** What a refresh means to the components that read [status] and
    [loading] from the context. *)
Definition seen_by_consumers (r : StatusResponse) : BuyPairModal.Refresh :=
  match r with
  | StatusOk data => BuyPairModal.Delivered data
  | StatusNotOk | StatusThrew _ => BuyPairModal.Failed
  end.

(** What the modal's [await unlock(password)] observes when the POST to
    [/wallet/unlock] settles with [post] and the refresh that may follow
    with [st]. *)
Definition unlock_seen_by_modal (post : PostResponse) (st : StatusResponse)
  : BuyPairModal.UnlockResponse :=
  match unlock post with
  | Throws e => BuyPairModal.UnlockThrew e
  | RefreshesAndReturns _ => BuyPairModal.UnlockDone (seen_by_consumers st)
  end.

End WalletProvider.

(* ================================================================= *)
(** ** The API proxy *)

(** [proxyRequest] of [frontend/app/api/[[...path]]/route.ts], the route
    behind every URL under [getApiBaseUrl()].  A [URLSearchParams] object
    is its list of name/value pairs.  A [Headers] object is its header
    list: the name/value pairs in the order they were appended, names in
    any spelling, a name possibly more than once; names and values are
    those such an object accepts.  Header names are ASCII text. *)
Module Proxy.

Local Open Scope string_scope.

Definition Pairs : Type := list (string * string).

(** [String.prototype.toLowerCase], on the ASCII letters. *)
Definition lower_ascii (c : ascii) : ascii :=
  let n := nat_of_ascii c in
  if (Nat.leb 65 n && Nat.leb n 90)%bool then ascii_of_nat (n + 32) else c.

Fixpoint toLowerCase (s : string) : string :=
  match s with
  | EmptyString => EmptyString
  | String c r => String (lower_ascii c) (toLowerCase r)
  end.

Fixpoint remove_name (name : string) (l : Pairs) : Pairs :=
  match l with
  | [] => []
  | (k, v) :: r =>
      if String.eqb k name then remove_name name r
      else (k, v) :: remove_name name r
  end.

(** [URLSearchParams.prototype.set]: the first pair called [name] takes the
    value and the other pairs called [name] are removed; without such a
    pair a new one is appended. *)
Fixpoint set (name value : string) (l : Pairs) : Pairs :=
  match l with
  | [] => [(name, value)]
  | (k, v) :: r =>
      if String.eqb k name then (name, value) :: remove_name name r
      else (k, v) :: set name value r
  end.

(** [get]: the value of the first pair called [name]. *)
Fixpoint get (name : string) (l : Pairs) : option string :=
  match l with
  | [] => None
  | (k, v) :: r => if String.eqb k name then Some v else get name r
  end.

(** [request.nextUrl.searchParams.forEach((value, key) =>
      url.searchParams.set(key, value))], starting from the query the
    backend URL has so far. *)
Definition forward_query (request_query url_query : Pairs) : Pairs :=
  fold_left (fun acc kv => set (fst kv) (snd kv) acc) request_query url_query.

(** *** Headers objects *)

(** Tab, line feed, carriage return and space. *)
Definition is_http_whitespace (c : ascii) : bool :=
  let n := nat_of_ascii c in
  (Nat.eqb n 9 || Nat.eqb n 10 || Nat.eqb n 13 || Nat.eqb n 32)%bool.

Fixpoint strip_leading (s : string) : string :=
  match s with
  | String c r => if is_http_whitespace c then strip_leading r else s
  | EmptyString => s
  end.

Fixpoint strip_trailing (s : string) : string :=
  match s with
  | EmptyString => EmptyString
  | String c r =>
      match strip_trailing r with
      | EmptyString =>
          if is_http_whitespace c then EmptyString else String c EmptyString
      | t => String c t
      end
  end.

(** A header value is normalized when it is stored: leading and trailing
    HTTP white space goes. *)
Definition normalize (value : string) : string :=
  strip_trailing (strip_leading value).

(** [Headers.prototype.set], on a header list whose names are lower-case
    (one that [set] alone has built): names match whatever their case. *)
Definition headers_set (name value : string) (h : Pairs) : Pairs :=
  set (toLowerCase name) (normalize value) h.

(** The values a header list has for the lower-case [name], in order. *)
Fixpoint values_of (name : string) (h : Pairs) : list string :=
  match h with
  | [] => []
  | (k, v) :: r =>
      if String.eqb (toLowerCase k) name then v :: values_of name r
      else values_of name r
  end.

(** Insertion into an ascending list of names that has each name once. *)
Fixpoint insert_name (n : string) (l : list string) : list string :=
  match l with
  | [] => [n]
  | m :: r =>
      match String.compare n m with
      | Lt => n :: l
      | Eq => l
      | Gt => m :: insert_name n r
      end
  end.

(** The names of a header list: lower-cased, in ascending order, each
    once. *)
Definition sorted_names (h : Pairs) : list string :=
  fold_left (fun acc kv => insert_name (toLowerCase (fst kv)) acc) h [].

(** What iteration yields for one name: its values joined with a comma and
    a space; for [set-cookie] its values one by one. *)
Definition group (h : Pairs) (n : string) : Pairs :=
  if String.eqb n "set-cookie" then map (pair n) (values_of n h)
  else [(n, String.concat ", " (values_of n h))].

(** What [Headers.prototype.forEach] goes through: the groups of the
    names, in ascending order of the names. *)
Definition entries (h : Pairs) : Pairs := flat_map (group h) (sorted_names h).

(** [request.headers.forEach((value, key) => { if (key.toLowerCase() !==
    'host') headers.set(key, value) })], on a new [Headers]. *)
Definition forward_headers (request_headers : Pairs) : Pairs :=
  fold_left
    (fun acc kv =>
       if negb (String.eqb (toLowerCase (fst kv)) "host")
       then headers_set (fst kv) (snd kv) acc
       else acc)
    (entries request_headers) [].

(** The same loop over [response.headers], leaving out [content-encoding]
    and [transfer-encoding]. *)
Definition response_headers (backend_headers : Pairs) : Pairs :=
  fold_left
    (fun acc kv =>
       if negb (existsb (String.eqb (toLowerCase (fst kv)))
                        ["content-encoding"; "transfer-encoding"])
       then headers_set (fst kv) (snd kv) acc
       else acc)
    (entries backend_headers) [].

(** A body passed on as it streams in, or an object serialized as JSON. *)
Variant Body : Type :=
  | Passed (content : string)
  | Json (fields : Pairs).

Record Response : Type := {
  status : nat;
  statusText : string;
  response_items : Pairs;
  response_body : Body
}.

(** [NextResponse.json({ error: 'Backend unavailable' }, { status: 502 })] *)
Definition backend_unavailable : Response :=
  {| status := 502; statusText := "";
     response_items := [("content-type", "application/json")];
     response_body := Json [("error", "Backend unavailable")] |}.

(** The answer of the proxy: the backend's, or 502 when the call threw. *)
Definition proxy_response (backend : option Response) : Response :=
  match backend with
  | Some r =>
      {| status := status r; statusText := statusText r;
         response_items := response_headers (response_items r);
         response_body := response_body r |}
  | None => backend_unavailable
  end.

(** The value the last pair called [name] gives, among the pairs [keep]
    lets through, names taken through [norm]. *)
Fixpoint last_given (keep : string -> bool) (norm : string -> string)
    (name : string) (l : Pairs) : option string :=
  match l with
  | [] => None
  | (k, v) :: r =>
      match last_given keep norm name r with
      | Some w => Some w
      | None =>
          if (keep (norm k) && String.eqb (norm k) name)%bool then Some v
          else None
      end
  end.

End Proxy.

(* ================================================================= *)
(** ** The wallet dropdown *)

(** [WalletDropdown], the component through which the wallet is created,
    imported, unlocked, locked and approved (the consumer of every
    operation of the wallet provider).  The length of a password is
    [password.length], in UTF-16 code units; an address is hexadecimal
    text, one byte per character. *)
Module WalletDropdown.

Local Open Scope string_scope.

(** [type View = 'status' | 'unlock' | 'generate' | 'import'] *)
Variant View : Type := status_view | unlock_view | generate_view | import_view.

(** A call of one of the provider's operations, with its arguments. *)
Variant Operation : Type :=
  | CallUnlock (password : string)
  | CallGenerate (password : string)
  | CallImportKey (privateKey password : string)
  | CallLock
  | CallApproveContracts.

(** The handler that awaits a call. *)
Variant Kind : Type := Unlocking | Generating | Importing | Locking | Approving.

Definition kind_eqb (a b : Kind) : bool :=
  match a, b with
  | Unlocking, Unlocking | Generating, Generating | Importing, Importing
  | Locking, Locking | Approving, Approving => true
  | _, _ => false
  end.

Fixpoint remove_first (k : Kind) (l : list Kind) : list Kind :=
  match l with
  | [] => []
  | x :: r => if kind_eqb x k then r else x :: remove_first k r
  end.

(** The [useState] cells, the two values read from the wallet context, the
    calls made so far (latest first), the handlers still awaiting theirs,
    and the clipboard. *)
Record State : Type := {
  isOpen : bool;
  view : View;
  password : string;
  privateKey : string;
  error : option string;
  processing : bool;
  copied : bool;
  status : option BuyPairModal.WalletStatus;
  loading : bool;
  calls : list Operation;
  pending : list Kind;
  clipboard : option string
}.

Definition setIsOpen (v : bool) (s : State) : State :=
  {| isOpen := v; view := view s; password := password s;
     privateKey := privateKey s; error := error s;
     processing := processing s; copied := copied s; status := status s;
     loading := loading s; calls := calls s; pending := pending s;
     clipboard := clipboard s |}.

Definition setView (v : View) (s : State) : State :=
  {| isOpen := isOpen s; view := v; password := password s;
     privateKey := privateKey s; error := error s;
     processing := processing s; copied := copied s; status := status s;
     loading := loading s; calls := calls s; pending := pending s;
     clipboard := clipboard s |}.

Definition setPassword (v : string) (s : State) : State :=
  {| isOpen := isOpen s; view := view s; password := v;
     privateKey := privateKey s; error := error s;
     processing := processing s; copied := copied s; status := status s;
     loading := loading s; calls := calls s; pending := pending s;
     clipboard := clipboard s |}.

Definition setPrivateKey (v : string) (s : State) : State :=
  {| isOpen := isOpen s; view := view s; password := password s;
     privateKey := v; error := error s; processing := processing s;
     copied := copied s; status := status s; loading := loading s;
     calls := calls s; pending := pending s; clipboard := clipboard s |}.

Definition setError (v : option string) (s : State) : State :=
  {| isOpen := isOpen s; view := view s; password := password s;
     privateKey := privateKey s; error := v; processing := processing s;
     copied := copied s; status := status s; loading := loading s;
     calls := calls s; pending := pending s; clipboard := clipboard s |}.

Definition setProcessing (v : bool) (s : State) : State :=
  {| isOpen := isOpen s; view := view s; password := password s;
     privateKey := privateKey s; error := error s; processing := v;
     copied := copied s; status := status s; loading := loading s;
     calls := calls s; pending := pending s; clipboard := clipboard s |}.

Definition setCopied (v : bool) (s : State) : State :=
  {| isOpen := isOpen s; view := view s; password := password s;
     privateKey := privateKey s; error := error s;
     processing := processing s; copied := v; status := status s;
     loading := loading s; calls := calls s; pending := pending s;
     clipboard := clipboard s |}.

Definition setStatus (v : option BuyPairModal.WalletStatus) (s : State) : State :=
  {| isOpen := isOpen s; view := view s; password := password s;
     privateKey := privateKey s; error := error s;
     processing := processing s; copied := copied s; status := v;
     loading := loading s; calls := calls s; pending := pending s;
     clipboard := clipboard s |}.

Definition setLoading (v : bool) (s : State) : State :=
  {| isOpen := isOpen s; view := view s; password := password s;
     privateKey := privateKey s; error := error s;
     processing := processing s; copied := copied s; status := status s;
     loading := v; calls := calls s; pending := pending s;
     clipboard := clipboard s |}.

(** An operation of the provider is called and awaited by handler [k]. *)
Definition call (op : Operation) (k : Kind) (s : State) : State :=
  {| isOpen := isOpen s;
     view := view s;
     password := password s;
     privateKey := privateKey s;
     error := error s;
     processing := processing s;
     copied := copied s;
     status := status s;
     loading := loading s;
     calls := op :: calls s;
     pending := k :: pending s;
     clipboard := clipboard s |}.

(** The call awaited by a handler [k] settles. *)
Definition settled (k : Kind) (s : State) : State :=
  {| isOpen := isOpen s;
     view := view s;
     password := password s;
     privateKey := privateKey s;
     error := error s;
     processing := processing s;
     copied := copied s;
     status := status s;
     loading := loading s;
     calls := calls s;
     pending := remove_first k (pending s);
     clipboard := clipboard s |}.

(** [navigator.clipboard.writeText(text)] *)
Definition writeClipboard (text : string) (s : State) : State :=
  {| isOpen := isOpen s;
     view := view s;
     password := password s;
     privateKey := privateKey s;
     error := error s;
     processing := processing s;
     copied := copied s;
     status := status s;
     loading := loading s;
     calls := calls s;
     pending := pending s;
     clipboard := Some text |}.

Definition initial : State :=
  {| isOpen := false; view := status_view; password := ""; privateKey := "";
     error := None; processing := false; copied := false;
     status := None; loading := true;
     calls := []; pending := []; clipboard := None |}.

(** *** Values derived at each render *)

(** [status?.unlocked], [status?.exists] as conditions. *)
Definition isUnlocked (s : State) : bool :=
  match status s with Some st => BuyPairModal.unlocked st | None => false end.

Definition hasWallet (s : State) : bool :=
  match status s with Some st => BuyPairModal.exists_ st | None => false end.

(** [String.prototype.slice(start, end)] for [0 <= start <= end]. *)
Definition slice (first last : nat) (s : string) : string :=
  String.substring first (last - first) s.

(** [String.prototype.slice(-n)]: the last [n] characters, the whole string
    when it has fewer. *)
Definition slice_last (n : nat) (s : string) : string :=
  String.substring (String.length s - n) n s.

(** [`${status.address.slice(0, 6)}...${status.address.slice(-4)}`], [null]
    without an address or with an empty one. *)
Definition truncatedAddress (s : State) : option string :=
  match status s with
  | Some st =>
      match BuyPairModal.address st with
      | Some a =>
          if String.eqb a "" then None
          else Some (slice 0 6 a ++ "..." ++ slice_last 4 a)
      | None => None
      end
  | None => None
  end.

(** *** Handlers *)

Definition resetForm (s : State) : State :=
  let s := setView status_view s in
  let s := setPassword "" s in
  let s := setPrivateKey "" s in
  setError None s.

(** What an awaited operation settles with: it returns, or it throws. *)
Definition Outcome : Type := option BuyPairModal.Thrown.

Definition handleUnlock (s : State) : State :=
  if String.eqb (password s) "" then s
  else
    let s1 := setProcessing true s in
    let s2 := setError None s1 in
    call (CallUnlock (password s)) Unlocking s2.

(** The [try]/[catch]/[finally] of [handleUnlock], [handleGenerate] and
    [handleImport] after the [await]: [resetForm()] when the operation
    returned, the message when it threw, [setProcessing(false)] always. *)
Definition form_resume (fallback : string) (o : Outcome) (s : State) : State :=
  let s :=
    match o with
    | None => resetForm s
    | Some e => setError (Some (BuyPairModal.message_or fallback e)) s
    end in
  setProcessing false s.

(** [!password || password.length < 8] *)
Definition too_short (pw : string) : bool :=
  (String.eqb pw "" || Nat.ltb (JS.utf16_length pw) 8)%bool.

Definition handleGenerate (s : State) : State :=
  if too_short (password s) then
    setError (Some "Password must be at least 8 characters") s
  else
    let s1 := setProcessing true s in
    let s2 := setError None s1 in
    call (CallGenerate (password s)) Generating s2.

Definition handleImport (s : State) : State :=
  if too_short (password s) then
    setError (Some "Password must be at least 8 characters") s
  else if String.eqb (privateKey s) "" then
    setError (Some "Private key is required") s
  else
    let s1 := setProcessing true s in
    let s2 := setError None s1 in
    call (CallImportKey (privateKey s) (password s)) Importing s2.

Definition handleLock (s : State) : State :=
  call CallLock Locking (setProcessing true s).

(** [handleLock] has no [catch]: whatever [lock] settles with, only
    [setProcessing(false)] runs. *)
Definition handleLock_resume (o : Outcome) (s : State) : State :=
  setProcessing false s.

Definition handleApprove (s : State) : State :=
  let s1 := setProcessing true s in
  let s2 := setError None s1 in
  call CallApproveContracts Approving s2.

Definition handleApprove_resume (o : Outcome) (s : State) : State :=
  let s :=
    match o with
    | None => s
    | Some e => setError (Some (BuyPairModal.message_or "Failed to approve" e)) s
    end in
  setProcessing false s.

Definition resume (k : Kind) (o : Outcome) (s : State) : State :=
  match k with
  | Unlocking => form_resume "Failed to unlock" o s
  | Generating => form_resume "Failed to generate" o s
  | Importing => form_resume "Failed to import" o s
  | Locking => handleLock_resume o s
  | Approving => handleApprove_resume o s
  end.

Definition copyAddress (s : State) : State :=
  match status s with
  | Some st =>
      match BuyPairModal.address st with
      | Some a =>
          if String.eqb a "" then s
          else setCopied true (writeClipboard a s)
      | None => s
      end
  | None => s
  end.

(** The [mousedown] listener, for a press outside the dropdown. *)
Definition handleClickOutside (s : State) : State :=
  resetForm (setIsOpen false s).

(** *** What is on screen

    The panel is rendered while [isOpen]; its sections have conditions of
    their own, which do not exclude each other. *)
Definition view_is (v : View) (s : State) : bool :=
  match view s, v with
  | status_view, status_view | unlock_view, unlock_view
  | generate_view, generate_view | import_view, import_view => true
  | _, _ => false
  end.

Definition no_wallet_section (s : State) : bool :=
  isOpen s && negb (hasWallet s) && view_is status_view s.

Definition generate_form (s : State) : bool :=
  isOpen s && view_is generate_view s.

Definition import_form (s : State) : bool :=
  isOpen s && view_is import_view s.

Definition locked_section (s : State) : bool :=
  isOpen s && hasWallet s && negb (isUnlocked s) && view_is status_view s.

Definition unlocked_section (s : State) : bool :=
  isOpen s && isUnlocked s && view_is status_view s.

Definition lock_button (s : State) : bool := isOpen s && isUnlocked s.

Definition approve_button (s : State) : bool :=
  unlocked_section s
  && negb match status s with
          | Some st => BuyPairModal.approvals_set st
          | None => false
          end.

(** *** Events *)
Variant Event : Type :=
  | ClickTrigger
  | MouseDownOutside
  | ClickGenerateNew
  | ClickImportKey
  | ClickCancel
  | ChangePassword (v : string)
  | ChangePrivateKey (v : string)
  | ClickGenerate
  | EnterInGenerateForm
  | ClickImport
  | EnterInImportForm
  | ClickUnlock
  | EnterInUnlockForm
  | ClickLock
  | ClickApprove
  | ClickCopy
  | CopiedTimeout
  | Settled (k : Kind) (o : Outcome)
  | WalletChanged (st : option BuyPairModal.WalletStatus) (is_loading : bool).

Definition when (condition : bool) (s' s : State) : State :=
  if condition then s' else s.

Definition dispatch (s : State) (e : Event) : State :=
  match e with
  | ClickTrigger => when (negb (loading s)) (setIsOpen (negb (isOpen s)) s) s
  | MouseDownOutside => handleClickOutside s
  | ClickGenerateNew => when (no_wallet_section s) (setView generate_view s) s
  | ClickImportKey => when (no_wallet_section s) (setView import_view s) s
  | ClickCancel => when (generate_form s || import_form s) (resetForm s) s
  | ChangePassword v =>
      when (generate_form s || import_form s || locked_section s)
           (setPassword v s) s
  | ChangePrivateKey v => when (import_form s) (setPrivateKey v s) s
  | ClickGenerate =>
      when (generate_form s
            && negb (processing s || String.eqb (password s) ""))
           (handleGenerate s) s
  | EnterInGenerateForm => when (generate_form s) (handleGenerate s) s
  | ClickImport =>
      when (import_form s
            && negb (processing s || String.eqb (password s) ""
                     || String.eqb (privateKey s) ""))
           (handleImport s) s
  | EnterInImportForm => when (import_form s) (handleImport s) s
  | ClickUnlock =>
      when (locked_section s
            && negb (processing s || String.eqb (password s) ""))
           (handleUnlock s) s
  | EnterInUnlockForm => when (locked_section s) (handleUnlock s) s
  | ClickLock =>
      when (lock_button s && negb (processing s)) (handleLock s) s
  | ClickApprove =>
      when (approve_button s && negb (processing s)) (handleApprove s) s
  | ClickCopy => when (unlocked_section s) (copyAddress s) s
  | CopiedTimeout => setCopied false s
  | Settled k o =>
      when (existsb (kind_eqb k) (pending s)) (resume k o (settled k s)) s
  | WalletChanged st is_loading => setLoading is_loading (setStatus st s)
  end.

Definition run (s : State) (es : list Event) : State :=
  fold_left dispatch es s.

(** The letter e with an acute accent: two bytes, one code unit. *)
Definition e_acute : string :=
  String (ascii_of_nat 195) (String (ascii_of_nat 169) EmptyString).

(** A wallet that exists, as [/wallet/status] reports it. *)
Definition sample_wallet (is_unlocked : bool) : BuyPairModal.WalletStatus :=
  {| BuyPairModal.exists_ := true;
     BuyPairModal.address := Some "0x51aB00000000000000000000000000000000c0De";
     BuyPairModal.unlocked := is_unlocked;
     BuyPairModal.balances := None;
     BuyPairModal.approvals_set := false |}.

End WalletDropdown.

(* ================================================================= *)
(** ** The trader monitor *)

(** [src/trader-monitor]: [client.ts], [traders.ts] and [scanner.ts].  The
    numeric fields of a fill are numbers when present; dates are the ISO
    strings the clock gives. *)
Module TraderMonitor.
Import JS.

Local Open Scope string_scope.

Definition Thrown : Type := BuyPairModal.Thrown.

(** [type TraderBucket = 'NegRisk' | 'Basic'] *)
Variant TraderBucket : Type := NegRisk | Basic.

Record TrackedTrader : Type := {
  handle : string;
  bucket : TraderBucket
}.

Definition TRACKED_TRADERS : list TrackedTrader :=
  [ {| handle := "xmgnr"; bucket := NegRisk |};
     {| handle := "luishXYZ"; bucket := NegRisk |};
     {| handle := "copenzafan"; bucket := NegRisk |};
     {| handle := "carverfomo"; bucket := NegRisk |};
     {| handle := "sorokx"; bucket := NegRisk |};
     {| handle := "holy_moses7"; bucket := NegRisk |};
     {| handle := "PolycoolApp"; bucket := NegRisk |};
     {| handle := "itslirrato"; bucket := NegRisk |};
     {| handle := "zodchiii"; bucket := NegRisk |};
     {| handle := "Zun2025"; bucket := NegRisk |};
     {| handle := "clawdvine"; bucket := Basic |};
     {| handle := "polytraderAI"; bucket := Basic |};
     {| handle := "takecgcj"; bucket := Basic |};
     {| handle := "blknoiz06"; bucket := Basic |};
     {| handle := "cryptorover"; bucket := Basic |};
     {| handle := "antpalkin"; bucket := Basic |};
     {| handle := "SpotTheAnamoly"; bucket := Basic |};
     {| handle := "AdiFlips"; bucket := Basic |};
     {| handle := "Zun2025"; bucket := Basic |};
     {| handle := "zodchiii"; bucket := Basic |} ].

Record PolymarketProfile : Type := {
  profile_handle : string;
  proxyWallet : option string;
  createdAt : option string
}.

Record TraderPnLWindow : Type := {
  realizedPnlUsd : number;
  unrealizedPnlUsd : number;
  volumeUsd : number;
  winRate : number;
  from : string;
  to : string
}.

Record TraderSnapshot : Type := {
  snapshot_handle : string;
  snapshot_bucket : TraderBucket;
  snapshot_wallet : option string;
  pnl7d : number;
  volume7d : number;
  winRate7d : number;
  timestamp : string
}.

(** One element of the [/fills] answer; an absent field is [undefined]. *)
Record Fill : Type := {
  size : option number;
  price : option number;
  fill_pnl : option number;
  isWin : option bool
}.

(** What [fetchProfileByHandle] can observe of its request: it rejects, the
    response is not ok, or it is ok with the two fields read from it. *)
Variant ProfileFetch : Type :=
  | ProfileThrew (e : Thrown)
  | ProfileNotOk
  | ProfileOk (wallet created : option string).

Variant FillsFetch : Type :=
  | FillsThrew (e : Thrown)
  | FillsNotOk
  | FillsOk (fills : list Fill).

(** [x + y] and [x / y] *)
Definition add (x y : number) : number := SFadd prec emax x y.
Definition div (x y : number) : number := SFdiv prec emax x y.

(** [Number(x ?? 0)] on a number or [undefined]. *)
Definition number_or_zero (x : option number) : number :=
  match x with Some n => n | None => of_Z 0 end.

(** [Boolean(x ?? false)] *)
Definition bool_or_false (x : option bool) : bool :=
  match x with Some b => b | None => false end.

(** [fetchProfileByHandle], from its settled request on; [inr None] is the
    [null] it returns for a response that is not ok. *)
Definition fetchProfileByHandle (h : string) (r : ProfileFetch)
  : Thrown + option PolymarketProfile :=
  match r with
  | ProfileThrew e => inl e
  | ProfileNotOk => inr None
  | ProfileOk wallet created =>
      inr (Some {| profile_handle := h; proxyWallet := wallet;
                   createdAt := created |})
  end.

(** The four accumulators of the loop over the fills. *)
Record Totals : Type := {
  realized : number;
  volume : number;
  wins : nat;
  trades : nat
}.

Definition count_fill (t : Totals) (f : Fill) : Totals :=
  {| realized := add (realized t) (number_or_zero (fill_pnl f));
     volume := add (volume t)
                   (mul (number_or_zero (size f)) (number_or_zero (price f)));
     wins := if bool_or_false (isWin f) then S (wins t) else wins t;
     trades := S (trades t) |}.

Definition totals (fills : list Fill) : Totals :=
  fold_left count_fill fills
    {| realized := of_Z 0; volume := of_Z 0; wins := 0; trades := 0 |}.

(** [fetchRecentPnLForWallet], from its settled request on; [from_iso] and
    [to_iso] are the bounds of the window as ISO strings. *)
Definition fetchRecentPnLForWallet (r : FillsFetch) (from_iso to_iso : string)
  : Thrown + TraderPnLWindow :=
  match r with
  | FillsThrew e => inl e
  | FillsNotOk =>
      inr {| realizedPnlUsd := of_Z 0; unrealizedPnlUsd := of_Z 0;
             volumeUsd := of_Z 0; winRate := of_Z 0;
             from := from_iso; to := to_iso |}
  | FillsOk fills =>
      let t := totals fills in
      inr {| realizedPnlUsd := realized t; unrealizedPnlUsd := of_Z 0;
             volumeUsd := volume t;
             winRate :=
               if Nat.ltb 0 (trades t)
               then div (of_Z (Z.of_nat (wins t))) (of_Z (Z.of_nat (trades t)))
               else of_Z 0;
             from := from_iso; to := to_iso |}
  end.

(** Requests of the scanner, in order. *)
Variant Call : Type :=
  | GetProfile (h : string)
  | GetFills (wallet : string).

Section Scanner.

(** The Gamma API: each request answers and moves the world on; the clock
    gives the bounds of the window asked for. *)
Variable World : Type.
Variable profile_of : string -> World -> ProfileFetch * World.
Variable fills_of : string -> World -> FillsFetch * World.
Variable window : World -> string * string.

(** [!profile || !profile.proxyWallet]: the wallet to look up, if any. *)
Definition wallet_to_scan (profile : option PolymarketProfile) : option string :=
  match profile with
  | Some p =>
      match proxyWallet p with
      | Some w => if String.eqb w "" then None else Some w
      | None => None
      end
  | None => None
  end.

Definition empty_snapshot (t : TrackedTrader) (nowIso : string) : TraderSnapshot :=
  {| snapshot_handle := handle t; snapshot_bucket := bucket t;
     snapshot_wallet := None;
     pnl7d := of_Z 0; volume7d := of_Z 0; winRate7d := of_Z 0;
     timestamp := nowIso |}.

Definition snapshot_of (t : TrackedTrader) (w : string) (pnl : TraderPnLWindow)
    (nowIso : string) : TraderSnapshot :=
  {| snapshot_handle := handle t; snapshot_bucket := bucket t;
     snapshot_wallet := Some w;
     pnl7d := realizedPnlUsd pnl; volume7d := volumeUsd pnl;
     winRate7d := winRate pnl;
     timestamp := nowIso |}.

(** The [for] loop of [scanTrackedTraders]: a request that throws rejects
    the whole scan. *)
Fixpoint scan (ts : list TrackedTrader) (nowIso : string)
    (results : list TraderSnapshot) (st : World * list Call)
  : (Thrown + list TraderSnapshot) * (World * list Call) :=
  match ts with
  | [] => (inr results, st)
  | t :: rest =>
      let '(pr, w1) := profile_of (handle t) (fst st) in
      let log1 := (snd st ++ [GetProfile (handle t)])%list in
      match fetchProfileByHandle (handle t) pr with
      | inl e => (inl e, (w1, log1))
      | inr profile =>
          match wallet_to_scan profile with
          | None =>
              scan rest nowIso (results ++ [empty_snapshot t nowIso])%list
                   (w1, log1)
          | Some w =>
              let '(fr, w2) := fills_of w w1 in
              let log2 := (log1 ++ [GetFills w])%list in
              match fetchRecentPnLForWallet fr (fst (window w1))
                                            (snd (window w1)) with
              | inl e => (inl e, (w2, log2))
              | inr pnl =>
                  scan rest nowIso
                       (results ++ [snapshot_of t w pnl nowIso])%list
                       (w2, log2)
              end
          end
      end
  end.

Definition scanTrackedTraders (nowIso : string) (w : World)
  : (Thrown + list TraderSnapshot) * (World * list Call) :=
  scan TRACKED_TRADERS nowIso [] (w, []).

End Scanner.

End TraderMonitor.

(* ================================================================= *)
(** * Properties of the client *)

Section ModalFacts.
Import JS BuyPairModal.
Local Open Scope string_scope.

(* ----------------------------------------------------------------- *)
(** *** parseFloat on sample inputs *)

Example parseFloat_integer : parseFloat "10" = of_Z 10.
Proof. vm_compute. reflexivity. Qed.

Example parseFloat_fraction :
  parseFloat "0.1" = S754_finite false 7205759403792794 (-56).
Proof. vm_compute. reflexivity. Qed.

Example parseFloat_longest_prefix :
  parseFloat "  7.5e1xyz" = of_Z 75 /\ parseFloat "5e" = of_Z 5
  /\ parseFloat "5." = of_Z 5 /\ parseFloat "-0" = S754_zero true.
Proof. repeat split; vm_compute; reflexivity. Qed.

Example parseFloat_not_a_number :
  parseFloat "" = NaN /\ parseFloat "abc" = NaN /\ parseFloat "." = NaN
  /\ parseFloat "e5" = NaN.
Proof. repeat split; vm_compute; reflexivity. Qed.

Example parseFloat_rounds :
  parseFloat "9007199254740993" = of_Z 9007199254740992
  /\ parseFloat "1e400" = S754_infinity false
  /\ parseFloat "1e-400" = pos_zero.
Proof. repeat split; vm_compute; reflexivity. Qed.

Example amountNum_initial : amountNum initial = of_Z 10.
Proof. vm_compute. reflexivity. Qed.

(* ----------------------------------------------------------------- *)
(** *** Facts about the numeric operators *)

Lemma SFcompare_swap (x y : number) :
  SFcompare y x = option_map CompOpp (SFcompare x y).
Proof.
  destruct x as [sx | sx | | sx mx ex], y as [sy | sy | | sy my ey];
    cbn; try reflexivity;
    try (destruct sx; reflexivity); try (destruct sy; reflexivity);
    try (destruct sx, sy; reflexivity).
  destruct sx, sy; try reflexivity.
  - rewrite (Z.compare_antisym ex ey).
    destruct (ex ?= ey)%Z; cbn; try reflexivity.
    f_equal. f_equal. change (Pos.compare_cont Eq my mx) with (Pos.compare my mx).
    now rewrite (Pos.compare_antisym mx my).
  - rewrite (Z.compare_antisym ex ey).
    destruct (ex ?= ey)%Z; cbn; try reflexivity.
    f_equal. change (Pos.compare_cont Eq my mx) with (Pos.compare my mx).
    now rewrite (Pos.compare_antisym mx my).
Qed.

Lemma gt_not_ge (x y : number) : gt x y = true -> ge y x = false.
Proof.
  unfold gt, ge. rewrite (SFcompare_swap x y).
  destruct (SFcompare x y) as [[ | | ] | ]; cbn; congruence.
Qed.

Lemma lt_not_ge (x y : number) : lt x y = true -> ge x y = false.
Proof.
  unfold lt, ge. destruct (SFcompare x y) as [[ | | ] | ]; congruence.
Qed.

Lemma or_zero_falsy (x : number) : truthy x = false -> or_zero x = pos_zero.
Proof. unfold or_zero. now intros ->. Qed.

(* ----------------------------------------------------------------- *)
(** *** What a click on Confirm Purchase needs *)

Lemma confirm_enabled_spec (s : State) :
  confirm_enabled s = true ->
  step s = Step.input /\ walletLoading s = false /\ needsUnlock s = false
  /\ hasSufficientBalance s = true /\ meetsMinimum s = true.
Proof.
  unfold confirm_enabled, render.
  destruct (step s); try discriminate.
  - destruct (walletLoading s); try discriminate.
    destruct (needsUnlock s); try discriminate.
    destruct (hasSufficientBalance s), (meetsMinimum s); cbn; intuition discriminate.
  - destruct (result s); discriminate.
Qed.

Lemma click_confirm_cases (p : Portfolio.t) (s : State) :
  (confirm_enabled s = true /\ dispatch p s ClickConfirm = handleBuy p s)
  \/ (confirm_enabled s = false /\ dispatch p s ClickConfirm = s).
Proof.
  unfold confirm_enabled. cbn [dispatch].
  destruct (render s) as [ | | [ | ] ? ? ? | | | | ]; auto.
Qed.


Lemma confirm_enabled_iff (s : State) :
  confirm_enabled s = true <->
  step s = Step.input /\ walletLoading s = false /\ needsUnlock s = false
  /\ hasSufficientBalance s = true /\ meetsMinimum s = true.
Proof.
  split; [apply confirm_enabled_spec | ].
  intros (Hs & Hl & Hu & Hb & Hm).
  unfold confirm_enabled, render. now rewrite Hs, Hl, Hu, Hb, Hm.
Qed.

(** The only event that sends a request is an accepted click on Confirm
    Purchase, and it sends [requestBody]. *)
Lemma dispatch_requests (p : Portfolio.t) (s : State) (e : Event) :
  requests (dispatch p s e) = requests s
  \/ (e = ClickConfirm /\ confirm_enabled s = true
      /\ requests (dispatch p s e) = requestBody p s :: requests s).
Proof.
  destruct e; cbn [dispatch].
  - left. destruct (render s); reflexivity.
  - left. destruct (render s); reflexivity.
  - destruct (click_confirm_cases p s) as [[He Hd] | [He Hd]];
      cbn [dispatch] in Hd; rewrite Hd.
    + right. repeat split; trivial.
      apply confirm_enabled_spec in He. destruct He as (_ & _ & _ & Hb & _).
      unfold handleBuy. now rewrite Hb.
    + now left.
  - left. destruct (render s) as [ | [ | ] | | | | | ]; trivial.
    unfold handleUnlock. destruct (String.eqb (password s) ""); reflexivity.
  - left. destruct (render s); trivial.
    unfold handleUnlock. destruct (String.eqb (password s) ""); reflexivity.
  - left. destruct (render s); reflexivity.
  - left. destruct (trades_in_flight s); trivial. destruct r; reflexivity.
  - left. destruct (unlocks_in_flight s); trivial.
    destruct r as [e | [ | w]]; reflexivity.
  - left. destruct r; reflexivity.
Qed.

(** A property of every body an accepted click sends holds of every request
    on the wire. *)
Lemma requests_invariant (P : BuyPairRequest -> Prop) (p : Portfolio.t) :
  (forall s, confirm_enabled s = true -> P (requestBody p s)) ->
  forall es s, Forall P (requests s) -> Forall P (requests (run p s es)).
Proof.
  intros HP es. induction es as [ | e es IH]; intros s Hs; cbn; trivial.
  apply IH.
  destruct (dispatch_requests p s e) as [-> | (_ & He & ->)]; trivial.
  constructor; auto.
Qed.

Lemma ge_minimum_truthy (x : number) : ge x MIN_AMOUNT = true -> truthy x = true.
Proof. destruct x as [ | | | ]; trivial; discriminate. Qed.

Ltac settle :=
  repeat split; try reflexivity; try (cbn; lia);
  try (let HH := fresh in intro HH; exact HH); try (cbn; discriminate).

(* ----------------------------------------------------------------- *)
(** *** C1 *)

(** C1.  When twice the amount per position exceeds the USDC.e balance,
    [handleBuy] sets the error "Insufficient USDC.e balance" and returns:
    the step is unchanged, no request to the trading endpoint is sent and
    none is awaited; the same holds for a click on Confirm Purchase. *)
Theorem C1_insufficient_balance_rejected (p : Portfolio.t) (s : State) :
  gt (totalCost s) (balanceUsdc s) = true ->
  handleBuy p s = setError (Some "Insufficient USDC.e balance") s
  /\ error (handleBuy p s) = Some "Insufficient USDC.e balance"
  /\ step (handleBuy p s) = step s
  /\ requests (handleBuy p s) = requests s
  /\ trades_in_flight (handleBuy p s) = trades_in_flight s
  /\ requests (dispatch p s ClickConfirm) = requests s.
Proof.
  intros H. apply gt_not_ge in H.
  assert (E : handleBuy p s = setError (Some "Insufficient USDC.e balance") s).
  { unfold handleBuy, hasSufficientBalance. now rewrite H. }
  rewrite E. repeat split.
  destruct (click_confirm_cases p s) as [[_ ->] | [_ ->]]; trivial.
  now rewrite E.
Qed.

Lemma C1_witness :
  gt (totalCost (ready "3" "5")) (balanceUsdc (ready "3" "5")) = true
  /\ error (handleBuy sample_portfolio (ready "3" "5"))
     = Some "Insufficient USDC.e balance"
  /\ requests (handleBuy sample_portfolio (ready "3" "5")) = [].
Proof.
  split; [vm_compute; reflexivity | ].
  destruct (C1_insufficient_balance_rejected sample_portfolio (ready "3" "5"))
    as (_ & He & _ & Hr & _); [vm_compute; reflexivity | ].
  split; [exact He | exact Hr].
Defined.

(* ----------------------------------------------------------------- *)
(** *** C2 *)

(** C2.  While the amount per position is below the minimum order size of
    5, no event whatsoever sends a request to the trading endpoint, starts
    awaiting one, or moves the modal into the executing step. *)
Theorem C2_below_minimum_never_executes
    (p : Portfolio.t) (s : State) (e : Event) :
  lt (amountNum s) MIN_AMOUNT = true ->
  requests (dispatch p s e) = requests s
  /\ (trades_in_flight (dispatch p s e) <= trades_in_flight s)%nat
  /\ (step (dispatch p s e) = Step.executing -> step s = Step.executing).
Proof.
  intros H. apply lt_not_ge in H. fold (meetsMinimum s) in H.
  assert (Hc : confirm_enabled s = false).
  { destruct (confirm_enabled s) eqn:E; trivial.
    apply confirm_enabled_spec in E. destruct E as (_ & _ & _ & _ & E).
    congruence. }
  destruct e; cbn [dispatch].
  - destruct (render s); settle.
  - destruct (render s); settle.
  - destruct (click_confirm_cases p s) as [[He _] | [_ Hd]]; [congruence | ].
    cbn [dispatch] in Hd. rewrite Hd. settle.
  - destruct (render s) as [ | [ | ] | | | | | ]; settle;
      unfold handleUnlock; destruct (String.eqb (password s) ""); settle.
  - destruct (render s); settle;
      unfold handleUnlock; destruct (String.eqb (password s) ""); settle.
  - destruct (render s); settle.
  - destruct (trades_in_flight s) as [ | n] eqn:T; settle;
      destruct r as [ | | d]; settle; cbn; try rewrite T; cbn; try lia.
    destruct (Trade.success d); discriminate.
  - destruct (unlocks_in_flight s); settle; destruct r as [ | [ | ]]; settle.
  - destruct r; settle.
Qed.
Lemma C2_witness :
  lt (amountNum (ready "100" "3")) MIN_AMOUNT = true
  /\ requests (dispatch sample_portfolio (ready "100" "3") ClickConfirm) = []
  /\ step (dispatch sample_portfolio (ready "100" "3") ClickConfirm) = Step.input.
Proof.
  split; [vm_compute; reflexivity | ].
  destruct (C2_below_minimum_never_executes sample_portfolio
              (ready "100" "3") ClickConfirm) as (Hr & _ & _);
    [vm_compute; reflexivity | ].
  split; [exact Hr | vm_compute; reflexivity].
Defined.

(** Every request on the wire carries an amount of at least 5. *)
Lemma requests_meet_minimum (p : Portfolio.t) (es : list Event) :
  Forall (fun r => ge (amount_per_position r) MIN_AMOUNT = true)
         (requests (run p initial es)).
Proof.
  apply requests_invariant; [ | constructor].
  intros s He. apply confirm_enabled_spec in He. cbn. tauto.
Qed.

(* ----------------------------------------------------------------- *)
(** *** C9 *)

(** C9.  The body [handleBuy] builds has [skip_clob_sell = false], and so
    has every request the modal has sent to [/trading/buy-pair] after any
    sequence of events, for every portfolio. *)
Theorem C9_skip_clob_sell_always_false (p : Portfolio.t) :
  (forall s, skip_clob_sell (requestBody p s) = false)
  /\ forall es,
       Forall (fun r => skip_clob_sell r = false) (requests (run p initial es)).
Proof.
  split; [reflexivity | ].
  intros es. apply requests_invariant; [ | constructor].
  intros s _. reflexivity.
Qed.

(* ----------------------------------------------------------------- *)
(** *** C10 *)

(** C10.  When the amount field holds a string that [parseFloat] maps to
    [NaN] or to a zero, [amountNum] is [0], [meetsMinimum] is false, the
    Confirm Purchase button, if on screen, is disabled, and a click on it
    changes nothing; and no request the modal ever sends carries a zero
    (or [NaN]) amount. *)
Theorem C10_unparsable_or_zero_amount_blocked (p : Portfolio.t) (s : State) :
  truthy (parseFloat (amount s)) = false ->
  amountNum s = pos_zero
  /\ meetsMinimum s = false
  /\ (forall d h b m, render s = InputForm d h b m -> d = true)
  /\ dispatch p s ClickConfirm = s
  /\ forall es,
       Forall (fun r => truthy (amount_per_position r) = true)
              (requests (run p initial es)).
Proof.
  intros H.
  assert (Ha : amountNum s = pos_zero) by (now apply or_zero_falsy).
  assert (Hm : meetsMinimum s = false).
  { unfold meetsMinimum. rewrite Ha. reflexivity. }
  repeat split; trivial.
  - intros d h b m R. unfold render in R.
    destruct (step s); try discriminate.
    + destruct (walletLoading s); try discriminate.
      destruct (needsUnlock s); try discriminate.
      rewrite Hm in R. injection R as <- _ _ _. apply orb_true_r.
    + destruct (result s); discriminate.
  - destruct (click_confirm_cases p s) as [[He _] | [_ Hd]]; trivial.
    apply confirm_enabled_spec in He. destruct He as (_ & _ & _ & _ & He).
    congruence.
  - intros es. eapply Forall_impl; [ | apply requests_meet_minimum].
    intros r. apply ge_minimum_truthy.
Qed.

Lemma C10_witness :
  truthy (parseFloat (amount (ready "100" "abc"))) = false
  /\ amountNum (ready "100" "abc") = pos_zero
  /\ dispatch sample_portfolio (ready "100" "abc") ClickConfirm
     = ready "100" "abc".
Proof.
  split; [vm_compute; reflexivity | ].
  destruct (C10_unparsable_or_zero_amount_blocked sample_portfolio
              (ready "100" "abc")) as (Ha & _ & _ & Hd & _);
    [vm_compute; reflexivity | ].
  split; [exact Ha | exact Hd].
Defined.
(* ----------------------------------------------------------------- *)
(** *** C3 *)

(** C3, as the code has it.  What the modal shows for a received
    [TradeResult] is decided by its [success] flag and its [warnings]
    alone: with [success] true it is "Partial Success" when there is at
    least one warning and "Purchase Complete" otherwise; with [success]
    false it is "Trade Failed", with or without warnings. *)
Theorem C3_presentation_of_a_result (s : State) (data : Trade.Result) :
  render (handleBuy_resume (HttpOk data) s)
  = if Trade.success data then
      SuccessPanel
        (if hasWarnings data then "Partial Success" else "Purchase Complete")
        (match Trade.warnings data with Some w => w | None => [] end)
    else ErrorPanel "Trade Failed" (error s).
Proof.
  unfold handleBuy_resume, render. cbn.
  destruct (Trade.success data); reflexivity.
Qed.

(** C3 as stated fails: a result with [success = false] and one warning is
    shown as "Trade Failed", not as a partial success. *)
Lemma C3_counterexample :
  let data :=
    sample_result false
      (sample_leg None None (Some "gas error"))
      (sample_leg (Some "0xc0") None (Some "order rejected"))
      "10" "90" (Some ["position not fully hedged"]) in
  let shown :=
    render (run sample_portfolio (ready "100" "10")
                [ClickConfirm; TradeSettled (HttpOk data)]) in
  Trade.success data = false
  /\ hasWarnings data = true
  /\ shown = ErrorPanel "Trade Failed" None
  /\ ~ (exists w, shown = SuccessPanel "Partial Success" w).
Proof.
  cbv zeta. repeat split; try (vm_compute; reflexivity).
  intros [w H]. vm_compute in H. discriminate.
Qed.

(* ----------------------------------------------------------------- *)
(** *** C4 *)




(* ----------------------------------------------------------------- *)
(** *** What a failed attempt leaves behind *)

(** A response after which the purchase has not succeeded. *)
Definition unsuccessful (r : BuyPairResponse) : Prop :=
  match r with
  | HttpOk data => Trade.success data = false
  | _ => True
  end.

Lemma settle_unsuccessful (r : BuyPairResponse) (s : State) :
  unsuccessful r ->
  step (handleBuy_resume r s) = Step.error
  /\ amount (handleBuy_resume r s) = amount s
  /\ status (handleBuy_resume r s) = status s
  /\ walletLoading (handleBuy_resume r s) = walletLoading s
  /\ requests (handleBuy_resume r s) = requests s.
Proof.
  destruct r as [ | | d]; cbn; intros H; repeat split; trivial.
  now rewrite H.
Qed.

(** Same amount and same wallet context give the same checks and the same
    request body. *)
Lemma checks_depend_on_amount_and_wallet (p : Portfolio.t) (s s' : State) :
  amount s' = amount s -> status s' = status s ->
  walletLoading s' = walletLoading s ->
  hasSufficientBalance s' = hasSufficientBalance s
  /\ meetsMinimum s' = meetsMinimum s
  /\ needsUnlock s' = needsUnlock s
  /\ requestBody p s' = requestBody p s.
Proof.
  intros Ha Hs Hl.
  unfold hasSufficientBalance, meetsMinimum, needsUnlock, requestBody,
    balanceUsdc, totalCost, amountNum.
  now rewrite Ha, Hs, Hl.
Qed.

Lemma accepted_click (p : Portfolio.t) (s : State) :
  confirm_enabled s = true ->
  dispatch p s ClickConfirm
  = fetch_buy_pair (requestBody p s)
      (setExecutionStep "Splitting target position..."
         (setError None (setStep Step.executing s))).
Proof.
  intros He.
  destruct (click_confirm_cases p s) as [[_ Hd] | [Hx _]]; [ | congruence].
  rewrite Hd. apply confirm_enabled_spec in He.
  destruct He as (_ & _ & _ & Hb & _). unfold handleBuy. now rewrite Hb.
Qed.


Lemma amount_kept (p : Portfolio.t) (s : State) (e : Event) :
  (forall v, e <> ChangeAmount v) -> amount (dispatch p s e) = amount s.
Proof.
  intros H. destruct e; cbn [dispatch].
  - now contradiction (H v).
  - destruct (render s); reflexivity.
  - destruct (click_confirm_cases p s) as [[_ Hd] | [_ Hd]];
      cbn [dispatch] in Hd; rewrite Hd; trivial.
    unfold handleBuy. destruct (hasSufficientBalance s); reflexivity.
  - destruct (render s) as [ | [ | ] | | | | | ]; trivial.
    unfold handleUnlock. destruct (String.eqb (password s) ""); reflexivity.
  - destruct (render s); trivial.
    unfold handleUnlock. destruct (String.eqb (password s) ""); reflexivity.
  - destruct (render s); reflexivity.
  - destruct (trades_in_flight s); trivial. destruct r; reflexivity.
  - destruct (unlocks_in_flight s); trivial.
    destruct r as [ | [ | ]]; reflexivity.
  - destruct r; reflexivity.
Qed.

(** The wallet status the modal reads is written by a refresh of the
    provider and by nothing else: the periodic one, or the one [unlock]
    awaits before it returns. *)
Lemma status_kept (p : Portfolio.t) (s : State) (e : Event) :
  (forall x, e <> WalletRefreshed x) -> (forall x, e <> UnlockSettled x) ->
  status (dispatch p s e) = status s.
Proof.
  intros H2 H3. destruct e; cbn [dispatch].
  - destruct (render s); reflexivity.
  - destruct (render s); reflexivity.
  - destruct (click_confirm_cases p s) as [[_ Hd] | [_ Hd]];
      cbn [dispatch] in Hd; rewrite Hd; trivial.
    unfold handleBuy. destruct (hasSufficientBalance s); reflexivity.
  - destruct (render s) as [ | [ | ] | | | | | ]; trivial.
    unfold handleUnlock. destruct (String.eqb (password s) ""); reflexivity.
  - destruct (render s); trivial.
    unfold handleUnlock. destruct (String.eqb (password s) ""); reflexivity.
  - destruct (render s); reflexivity.
  - destruct (trades_in_flight s); trivial. destruct r; reflexivity.
  - now contradiction (H3 r).
  - now contradiction (H2 r).
Qed.

(** An accepted purchase has failed and the user has pressed Try Again: the
    input form is back, with the amount and the wallet context of the first
    attempt, and the first request is on the wire. *)
Lemma after_failed_attempt (p : Portfolio.t) (s : State) (r : BuyPairResponse) :
  confirm_enabled s = true ->
  unsuccessful r ->
  let s1 := run p s [ClickConfirm; TradeSettled r; ClickTryAgain] in
  step s1 = Step.input
  /\ amount s1 = amount s
  /\ status s1 = status s
  /\ walletLoading s1 = walletLoading s
  /\ requests s1 = requestBody p s :: requests s.
Proof.
  intros He Hr. cbv zeta. cbn [run fold_left].
  rewrite (accepted_click p s He).
  set (s0 := fetch_buy_pair _ _).
  assert (T : dispatch p s0 (TradeSettled r)
              = handleBuy_resume r (trade_settles s0)) by reflexivity.
  rewrite T. clear T.
  destruct (settle_unsuccessful r (trade_settles s0) Hr)
    as (S2 & A2 & W2 & L2 & R2).
  set (s2 := handleBuy_resume r (trade_settles s0)) in *.
  assert (T : dispatch p s2 ClickTryAgain = tryAgain s2).
  { cbn [dispatch]. unfold render. now rewrite S2. }
  rewrite T. clear T.
  repeat split; [exact A2 | exact W2 | exact L2 | exact R2].
Qed.

(* ----------------------------------------------------------------- *)
(** *** C8 *)

(** [status?.balances?.usdc_e || 0], for the status the context holds. *)
Definition balance_in (st : option WalletStatus) : number :=
  match st with
  | Some st =>
      match balances st with
      | Some b => or_zero (usdc_e b)
      | None => pos_zero
      end
  | None => pos_zero
  end.

(** C8, as the code has it.  [handleBuy] decides at every call, by the
    balance in the wallet status the context holds at that moment: below
    twice the amount it reports the error and sends nothing, otherwise it
    sends the request.  That status is written by the provider's [refresh]
    alone; no trade handler writes it, whatever balances the answer to a
    trade reports.  So when an accepted first call has failed and the user
    retries with the same input, the check passes again, against the same
    status, and a second request is sent; when a refresh has been delivered
    in between the check is made against the status it stored, and a
    balance found too low there keeps Confirm Purchase from sending
    anything. *)
Theorem C8_balance_checked_against_held_status
    (p : Portfolio.t) (s : State) (r : BuyPairResponse)
    (w : option WalletStatus) :
  confirm_enabled s = true ->
  unsuccessful r ->
  (forall s0,
     hasSufficientBalance s0
     = ge (balance_in (status s0)) (mul (amountNum s0) (of_Z 2))
     /\ (hasSufficientBalance s0 = false ->
         handleBuy p s0 = setError (Some "Insufficient USDC.e balance") s0)
     /\ (hasSufficientBalance s0 = true ->
         requests (handleBuy p s0) = requestBody p s0 :: requests s0
         /\ step (handleBuy p s0) = Step.executing))
  /\ (forall s0 r0,
        status (handleBuy p s0) = status s0
        /\ status (handleBuy_resume r0 s0) = status s0
        /\ status (tryAgain s0) = status s0)
  /\ (forall s0 e,
        (forall x, e <> WalletRefreshed x) -> (forall x, e <> UnlockSettled x) ->
        status (dispatch p s0 e) = status s0)
  /\ (let s1 := run p s [ClickConfirm; TradeSettled r; ClickTryAgain] in
      status s1 = status s
      /\ hasSufficientBalance s1 = true
      /\ requests (dispatch p s1 ClickConfirm)
         = requestBody p s :: requestBody p s :: requests s)
  /\ (let s2 := run p s [ClickConfirm; TradeSettled r; ClickTryAgain;
                         WalletRefreshed (Delivered w)] in
      status s2 = w
      /\ hasSufficientBalance s2
         = ge (balance_in w) (mul (amountNum s) (of_Z 2))
      /\ (hasSufficientBalance s2 = false ->
          dispatch p s2 ClickConfirm = s2)
      /\ (hasSufficientBalance s2 = true ->
          match w with Some st => unlocked st = true | None => False end ->
          requests (dispatch p s2 ClickConfirm)
          = requestBody p s :: requestBody p s :: requests s)).
Proof.
  intros He Hr.
  destruct (confirm_enabled_spec s He) as (Hs & Hl & Hu & Hb & Hm).
  destruct (after_failed_attempt p s r He Hr) as (S1 & A1 & W1 & L1 & R1).
  cbv zeta in S1, A1, W1, L1, R1.
  split; [ | split; [ | split; [ | split]]].
  - intros s0. split; [reflexivity | ]. split.
    + intros H. unfold handleBuy. now rewrite H.
    + intros H. unfold handleBuy. rewrite H. split; reflexivity.
  - intros s0 r0. repeat split.
    + unfold handleBuy. destruct (hasSufficientBalance s0); reflexivity.
    + destruct r0; reflexivity.
  - intros s0 e. apply status_kept.
  - cbv zeta.
    set (s1 := run p s [ClickConfirm; TradeSettled r; ClickTryAgain]) in *.
    destruct (checks_depend_on_amount_and_wallet p s s1 A1 W1 L1)
      as (Cb & Cm & Cu & Cr).
    split; [exact W1 | ]. split; [congruence | ].
    assert (E1 : confirm_enabled s1 = true).
    { apply confirm_enabled_iff. repeat split; congruence. }
    rewrite (accepted_click p s1 E1). cbn [requests fetch_buy_pair].
    cbn [requests setExecutionStep setError setStep].
    now rewrite Cr, R1.
  - cbv zeta.
    change (run p s [ClickConfirm; TradeSettled r; ClickTryAgain;
                     WalletRefreshed (Delivered w)])
      with (refresh_resume (Delivered w)
              (run p s [ClickConfirm; TradeSettled r; ClickTryAgain])).
    set (s1 := run p s [ClickConfirm; TradeSettled r; ClickTryAgain]) in *.
    set (s2 := refresh_resume (Delivered w) s1).
    assert (W2 : status s2 = w) by reflexivity.
    assert (A2 : amount s2 = amount s) by exact A1.
    assert (S2 : step s2 = Step.input) by exact S1.
    assert (L2 : walletLoading s2 = false) by reflexivity.
    assert (R2 : requests s2 = requestBody p s :: requests s) by exact R1.
    assert (N2 : amountNum s2 = amountNum s).
    { unfold amountNum. now rewrite A2. }
    assert (B2 : hasSufficientBalance s2
                 = ge (balance_in w) (mul (amountNum s) (of_Z 2))).
    { unfold hasSufficientBalance, balanceUsdc, totalCost.
      rewrite N2, W2. reflexivity. }
    split; [exact W2 | ]. split; [exact B2 | ]. split.
    + intros H.
      destruct (click_confirm_cases p s2) as [[E _] | [_ Hd]]; [ | exact Hd].
      apply confirm_enabled_spec in E. destruct E as (_ & _ & _ & E & _).
      congruence.
    + intros H U.
      assert (E2 : confirm_enabled s2 = true).
      { apply confirm_enabled_iff. repeat split; trivial.
        - unfold needsUnlock. rewrite L2, W2.
          destruct w as [st | ]; [now rewrite U | contradiction].
        - unfold meetsMinimum. rewrite N2. exact Hm. }
      rewrite (accepted_click p s2 E2). cbn [requests fetch_buy_pair].
      cbn [requests setExecutionStep setError setStep].
      rewrite R2. unfold requestBody. now rewrite N2.
Qed.

(** A first call accepted at a balance of 100 fails.  Retried at once, the
    same request is sent again; retried after the provider has stored a
    status with a balance of 15, the check fails for the same amount of
    10. *)
Lemma C8_witness :
  let r := Rejected (ErrorObject "Failed to fetch") in
  let s1 := run sample_portfolio (ready "100" "10")
                [ClickConfirm; TradeSettled r; ClickTryAgain] in
  let s2 := run sample_portfolio (ready "100" "10")
                [ClickConfirm; TradeSettled r; ClickTryAgain;
                 WalletRefreshed (Delivered (Some (wallet true "15")))] in
  confirm_enabled (ready "100" "10") = true
  /\ List.length (requests (dispatch sample_portfolio s1 ClickConfirm)) = 2%nat
  /\ status s2 = Some (wallet true "15")
  /\ hasSufficientBalance s2 = false.
Proof.
  cbv zeta.
  destruct (C8_balance_checked_against_held_status sample_portfolio
              (ready "100" "10") (Rejected (ErrorObject "Failed to fetch"))
              (Some (wallet true "15")))
    as (_ & _ & _ & (_ & _ & Hq) & (Hs & Hb & _));
    [vm_compute; reflexivity | exact I | ].
  split; [vm_compute; reflexivity | ].
  split; [rewrite Hq; reflexivity | ].
  split; [exact Hs | ].
  rewrite Hb. vm_compute. reflexivity.
Defined.

(** C8 as stated fails: the check is not made against the balance the
    account holds when the call is made.  The wallet context reports 25;
    a first call for 10 per position is accepted, its target split fails,
    its cover leg commits 10, and the answer reports the balance read after
    execution, 15.  The retry with the same input needs 20: the check
    passes all the same, against the 25 of the status held since the last
    refresh, and the second request is sent. *)
Lemma C8_counterexample :
  let first :=
    sample_result false
      (sample_leg None None (Some "gas error"))
      (sample_leg (Some "0xb2") (Some "order-2") None)
      "10" "15" None in
  let s1 := run sample_portfolio (ready "25" "10")
                [ClickConfirm; TradeSettled (HttpOk first); ClickTryAgain] in
  result s1 = Some first
  /\ usdc_e (Trade.final_balances first) = of_Z 15
  /\ gt (totalCost s1) (usdc_e (Trade.final_balances first)) = true
  /\ balanceUsdc s1 = of_Z 25
  /\ hasSufficientBalance s1 = true
  /\ render s1 = InputForm false false true None
  /\ requests (dispatch sample_portfolio s1 ClickConfirm)
     = [requestBody sample_portfolio s1;
        requestBody sample_portfolio (ready "25" "10")]
  /\ step (dispatch sample_portfolio s1 ClickConfirm) = Step.executing.
Proof.
  cbv zeta. do 7 (split; [vm_compute; reflexivity | ]).
  vm_compute. reflexivity.
Qed.

(* ----------------------------------------------------------------- *)
(** *** C5 *)

(** The executing step is entered only by a click on Confirm Purchase in the
    input step with both checks passed. *)
Lemma executing_entered_by_valid_confirm
    (p : Portfolio.t) (s : State) (e : Event) :
  step (dispatch p s e) = Step.executing ->
  step s = Step.executing
  \/ (e = ClickConfirm /\ step s = Step.input
      /\ hasSufficientBalance s = true /\ meetsMinimum s = true).
Proof.
  destruct e; cbn [dispatch].
  - destruct (render s); auto.
  - destruct (render s); auto.
  - destruct (click_confirm_cases p s) as [[He Hd] | [_ Hd]];
      cbn [dispatch] in Hd; rewrite Hd; auto.
    apply confirm_enabled_spec in He. right. tauto.
  - destruct (render s) as [ | [ | ] | | | | | ]; auto.
    unfold handleUnlock. destruct (String.eqb (password s) ""); auto.
  - destruct (render s); auto.
    unfold handleUnlock. destruct (String.eqb (password s) ""); auto.
  - destruct (render s); auto. discriminate.
  - destruct (trades_in_flight s); auto.
    destruct r as [ | | d]; try discriminate.
    cbn. destruct (Trade.success d); discriminate.
  - destruct (unlocks_in_flight s); auto.
    destruct r as [ | [ | ]]; auto; discriminate.
  - destruct r; auto.
Qed.

(** At most one trade is awaited, and exactly while the step is executing. *)
Definition one_trade_while_executing (s : State) : Prop :=
  (trades_in_flight s <= 1)%nat
  /\ (trades_in_flight s = 1%nat <-> step s = Step.executing).

(** As long as no unlock call is pending, the flow is the intended one: a
    terminal step is entered from executing, by the settling of the awaited
    trade; the error step is left for input by Try Again only; requests are
    sent by accepted clicks only. *)
Lemma flow_without_pending_unlock (p : Portfolio.t) (s : State) (e : Event) :
  unlocks_in_flight s = 0%nat ->
  one_trade_while_executing s ->
  one_trade_while_executing (dispatch p s e)
  /\ (step (dispatch p s e) <> step s ->
      step (dispatch p s e) = Step.success
      \/ step (dispatch p s e) = Step.error ->
      step s = Step.executing /\ exists r, e = TradeSettled r)
  /\ (step s = Step.error -> step (dispatch p s e) = Step.input ->
      e = ClickTryAgain)
  /\ (requests (dispatch p s e) <> requests s -> e = ClickConfirm).
Proof.
  intros U (L & X). unfold one_trade_while_executing.
  split; [ | split; [ | split]].
  - destruct e; cbn [dispatch].
    + destruct (render s); auto.
    + destruct (render s); auto.
    + destruct (click_confirm_cases p s) as [[He Hd] | [_ Hd]];
        cbn [dispatch] in Hd; rewrite Hd; auto.
      apply confirm_enabled_spec in He. destruct He as (Hs & _ & _ & Hb & _).
      unfold handleBuy. rewrite Hb. cbn.
      assert (trades_in_flight s <> 1%nat) by (rewrite X; congruence).
      split; [lia | ]. split; [reflexivity | lia].
    + destruct (render s) as [ | [ | ] | | | | | ]; auto.
      unfold handleUnlock. destruct (String.eqb (password s) ""); auto.
    + destruct (render s); auto.
      unfold handleUnlock. destruct (String.eqb (password s) ""); auto.
    + destruct (render s) eqn:R; auto. cbn.
      assert (step s = Step.error).
      { unfold render in R. destruct (step s); trivial; try discriminate.
        - destruct (walletLoading s); try discriminate.
          destruct (needsUnlock s); discriminate.
        - destruct (result s); discriminate. }
      assert (trades_in_flight s <> 1%nat) by (rewrite X; congruence).
      split; [lia | ]. split; [intros; lia | discriminate].
    + destruct (trades_in_flight s) as [ | n] eqn:T; [rewrite T; split; assumption | ].
      assert (n = 0%nat) by lia. subst n.
      destruct r as [ | | d]; cbn; rewrite T; cbn;
        (split; [lia | split; [discriminate | ]]);
        try destruct (Trade.success d); discriminate.
    + rewrite U. auto.
    + destruct r; auto.
  - intros Hn Ht. destruct e; cbn [dispatch] in *.
    + destruct (render s); now contradiction Hn.
    + destruct (render s); now contradiction Hn.
    + destruct (click_confirm_cases p s) as [[He Hd] | [_ Hd]];
        cbn [dispatch] in Hd; rewrite Hd in *; [ | now contradiction Hn].
      apply confirm_enabled_spec in He. destruct He as (_ & _ & _ & Hb & _).
      unfold handleBuy in Ht. rewrite Hb in Ht. cbn in Ht.
      destruct Ht; discriminate.
    + destruct (render s) as [ | [ | ] | | | | | ]; try now contradiction Hn.
      unfold handleUnlock in Hn.
      destruct (String.eqb (password s) ""); now contradiction Hn.
    + destruct (render s); try now contradiction Hn.
      unfold handleUnlock in Hn.
      destruct (String.eqb (password s) ""); now contradiction Hn.
    + destruct (render s); try now contradiction Hn.
      cbn in Ht. destruct Ht; discriminate.
    + destruct (trades_in_flight s) as [ | n] eqn:T; [now contradiction Hn | ].
      split; [ | now exists r]. apply X. lia.
    + rewrite U in Hn. now contradiction Hn.
    + destruct r; now contradiction Hn.
  - intros He Hi. destruct e; cbn [dispatch] in *; trivial.
    + destruct (render s); cbn in Hi; congruence.
    + destruct (render s); cbn in Hi; congruence.
    + destruct (click_confirm_cases p s) as [[Hc Hd] | [_ Hd]];
        cbn [dispatch] in Hd; rewrite Hd in *; [ | congruence].
      apply confirm_enabled_spec in Hc. destruct Hc as (Hc & _). congruence.
    + destruct (render s) as [ | [ | ] | | | | | ]; try congruence.
      unfold handleUnlock in Hi.
      destruct (String.eqb (password s) ""); cbn in Hi; congruence.
    + destruct (render s); try congruence.
      unfold handleUnlock in Hi.
      destruct (String.eqb (password s) ""); cbn in Hi; congruence.
    + destruct (trades_in_flight s); [congruence | ].
      destruct r as [ | | d]; cbn in Hi; try discriminate.
      destruct (Trade.success d); discriminate.
    + rewrite U in Hi. congruence.
    + destruct r; cbn in Hi; congruence.
  - intros Hr. destruct (dispatch_requests p s e) as [H | (H & _)];
      [now contradiction Hr | exact H].
Qed.

(** C5 fails on the code when an unlock call is still pending.  Two presses
    of Enter in the password field start two unlock calls (the Unlock
    button is disabled meanwhile, the key handler is not guarded); the
    first unlock settles, the input form appears with Confirm Purchase
    enabled and the user confirms: the step is executing and a trade is
    awaited.  When the second unlock settles, [handleUnlock] sets the step
    back to input although the trade is still awaited, so the terminal step
    is then entered from input; and if the trade has failed first, the same
    continuation moves the modal from error to input without Try Again. *)
Theorem C5_pending_unlock_breaks_the_flow :
  let late := UnlockSettled (UnlockDone (Delivered (Some (wallet true "100")))) in
  let done :=
    TradeSettled
      (HttpOk (sample_result true
                 (sample_leg (Some "0xa1") (Some "order-1") None)
                 (sample_leg (Some "0xb2") (Some "order-2") None)
                 "20" "80" None)) in
  let failed := TradeSettled (Rejected (ErrorObject "Failed to fetch")) in
  let s := confirmed_with_unlock_pending in
  (render two_unlocks_pending = UnlockForm true
   /\ unlocks_in_flight two_unlocks_pending = 2%nat
   /\ render (dispatch sample_portfolio two_unlocks_pending late)
      = InputForm false false true None)
  /\ (step s = Step.executing /\ trades_in_flight s = 1%nat
      /\ unlocks_in_flight s = 1%nat)
  /\ (step (dispatch sample_portfolio s late) = Step.input
      /\ trades_in_flight (dispatch sample_portfolio s late) = 1%nat)
  /\ step (run sample_portfolio s [late; done]) = Step.success
  /\ (step (run sample_portfolio s [failed]) = Step.error
      /\ step (run sample_portfolio s [failed; late]) = Step.input).
Proof. cbv zeta. repeat split; vm_compute; reflexivity. Qed.

End ModalFacts.

(* ================================================================= *)
(** * Properties of the engine *)

Section EngineFacts.
Import Engine.
Local Open Scope Q_scope.

Variable World : Type.
Variable balances : World -> Balances * World.
Variable split : string -> Q -> World -> (string + string) * World.
Variable sell : string -> Position -> Q -> World -> (string + string) * World.

Let run_leg := execute_leg World split sell.
Let run_engine := execute World balances split sell.

Example validate_scenarios :
  validate 100 10 = ok
  /\ validate 3 5 = insufficient_balance
  /\ validate 3 4 = below_minimum
  /\ validate 100 4 = below_minimum
  /\ validate 19 10 = insufficient_balance.
Proof. repeat split; reflexivity. Qed.

Lemma Qplus_0_left (x : Q) : 0 + x == x.
Proof. ring. Qed.

Ltac conclude side :=
  eexists _, _, _; split; [reflexivity | ];
  cbn [aggregate error target_outcome cover_outcome split_tx success
       total_spent fst snd absent andb committed];
  split; [reflexivity | ];
  split; [reflexivity | ];
  split; [reflexivity | ];
  split; [reflexivity | ];
  split; [eexists; rewrite <- !app_assoc; cbn [app]; reflexivity | ];
  split; [apply Qplus_0_left | side; apply Qplus_0_left].

(** C6.  Once the precondition check has passed, both legs are attempted
    whatever happens to either: the split of the target leg is called,
    and later the split of the cover leg.  When the split of the target
    leg fails with [e], the result records [e] as the target's error and no
    [split_tx] for it; the cover's split is the very next call and the
    cover's recorded outcome is exactly what executing the cover leg alone,
    from the world the target left, yields; [total_spent] is what the cover
    leg committed, nothing for the target. *)
Theorem C6_target_split_failure_is_isolated
    (pair : HedgePair) (req : ExecutionRequest)
    (w w1 : World) (log : list Call) (b : Balances) :
  balances w = (b, w1) ->
  validate (usdc_e b) (amount_per_position req) = ok ->
  (exists r final mid rest,
     run_engine pair req (w, log)
     = (Executed r,
        (final,
         (log ++ [ReadBalances;
                  Split (target_market_id req) (amount_per_position req)]
              ++ mid
              ++ [Split (cover_market_id req) (amount_per_position req)]
              ++ rest)%list)))
  /\ forall (e : string) (w2 : World),
       split (target_market_id req) (amount_per_position req) w1
       = (inr e, w2) ->
       exists r final calls,
         run_engine pair req (w, log) = (Executed r, (final, calls))
         /\ error (target_outcome r) = Some e
         /\ split_tx (target_outcome r) = None
         /\ success r = false
         /\ cover_outcome r
            = fst (run_leg (cover_market_id req) (cover_position req)
                           (amount_per_position req) (skip_clob_sell req)
                           (w2, []))
         /\ (exists rest,
               calls
               = (log ++ [ReadBalances;
                          Split (target_market_id req) (amount_per_position req);
                          Split (cover_market_id req) (amount_per_position req)]
                      ++ rest)%list)
         /\ total_spent r == committed (amount_per_position req) (cover_outcome r)
         /\ (total_spent r == 0 \/ total_spent r == amount_per_position req).
Proof.
  intros Hb Hv. split.
  - unfold run_engine, execute, execute_leg, bind, read_balances,
      do_split, do_sell, ret.
    rewrite Hb, Hv.
    destruct (split (target_market_id req) (amount_per_position req) w1)
      as [[tx | e] w2].
    + destruct (skip_clob_sell req).
      * destruct (split (cover_market_id req) (amount_per_position req) w2)
          as [[tx' | e'] w3];
          destruct (balances w3) as [after w4];
          eexists _, _, [], _; rewrite <- !app_assoc; cbn [app]; reflexivity.
      * destruct (sell (target_market_id req)
                       (complement (target_position req))
                       (amount_per_position req) w2) as [[f | e] w3];
          (destruct (split (cover_market_id req) (amount_per_position req) w3)
             as [[tx' | e'] w4];
           [ destruct (sell (cover_market_id req)
                            (complement (cover_position req))
                            (amount_per_position req) w4) as [[f' | e'] w5];
             destruct (balances w5) as [after w6]
           | destruct (balances w4) as [after w5] ];
           eexists _, _, [_], _; rewrite <- !app_assoc; cbn [app];
           reflexivity).
    + destruct (split (cover_market_id req) (amount_per_position req) w2)
        as [[tx' | e'] w3].
      * destruct (skip_clob_sell req).
        -- destruct (balances w3) as [after w4].
           eexists _, _, [], _; rewrite <- !app_assoc; cbn [app]; reflexivity.
        -- destruct (sell (cover_market_id req)
                          (complement (cover_position req))
                          (amount_per_position req) w3) as [[f' | e''] w4];
             destruct (balances w4) as [after w5];
             eexists _, _, [], _; rewrite <- !app_assoc; cbn [app];
             reflexivity.
      * destruct (balances w3) as [after w4].
        eexists _, _, [], _; rewrite <- !app_assoc; cbn [app]; reflexivity.
  - intros e w2 Hs.
    unfold run_engine, run_leg, execute, execute_leg, bind, read_balances,
      do_split, do_sell, ret.
    rewrite Hb, Hv, Hs.
    destruct (split (cover_market_id req) (amount_per_position req) w2)
      as [[tx | e'] w3].
    + destruct (skip_clob_sell req).
      * destruct (balances w3) as [after w4]. conclude ltac:(right).
      * destruct (sell (cover_market_id req) (complement (cover_position req))
                       (amount_per_position req) w3) as [[f | e'] w4];
          destruct (balances w4) as [after w5]; conclude ltac:(right).
    + destruct (balances w3) as [after w4]. conclude ltac:(left).
Qed.

(** C7.  When the precondition check has passed and both legs' split and
    sell steps go through, the engine returns a result with [success]
    true, an empty list of warnings and [total_spent] twice the amount per
    position; each leg's outcome carries the identifiers its split and its
    sell answered with and no error, and the calls made are the two
    balance readings around split, sell, split, sell. *)
Theorem C7_both_legs_succeed
    (pair : HedgePair) (req : ExecutionRequest)
    (w w1 w2 w3 w4 w5 : World) (log : list Call) (b : Balances)
    (tx1 tx2 order1 order2 : string) :
  balances w = (b, w1) ->
  validate (usdc_e b) (amount_per_position req) = ok ->
  skip_clob_sell req = false ->
  split (target_market_id req) (amount_per_position req) w1 = (inl tx1, w2) ->
  sell (target_market_id req) (complement (target_position req))
       (amount_per_position req) w2 = (inl order1, w3) ->
  split (cover_market_id req) (amount_per_position req) w3 = (inl tx2, w4) ->
  sell (cover_market_id req) (complement (cover_position req))
       (amount_per_position req) w4 = (inl order2, w5) ->
  exists r final,
    run_engine pair req (w, log)
    = (Executed r,
       (final,
        (log ++ [ReadBalances;
                 Split (target_market_id req) (amount_per_position req);
                 Sell (target_market_id req) (complement (target_position req))
                      (amount_per_position req);
                 Split (cover_market_id req) (amount_per_position req);
                 Sell (cover_market_id req) (complement (cover_position req))
                      (amount_per_position req);
                 ReadBalances])%list))
    /\ success r = true
    /\ warnings r = []
    /\ total_spent r == 2 * amount_per_position req
    /\ target_outcome r
       = {| split_tx := Some tx1; clob_order_id := Some order1; error := None |}
    /\ cover_outcome r
       = {| split_tx := Some tx2; clob_order_id := Some order2; error := None |}.
Proof.
  intros Hb Hv Hk Hs1 Hl1 Hs2 Hl2.
  unfold run_engine, execute, execute_leg, bind, read_balances,
    do_split, do_sell, ret.
  rewrite Hb, Hv, Hs1, Hk, Hl1, Hs2, Hl2.
  destruct (balances w5) as [after w6].
  eexists _, _. split.
  - rewrite <- !app_assoc. cbn [app]. reflexivity.
  - unfold aggregate, unhedged_warning. cbn. repeat split. ring.
Qed.

End EngineFacts.

(** The scenario of a balance of 100, an amount of 10, a target split that
    fails with "gas error" and a cover leg that goes through. *)
Lemma C6_witness :
  exists r final calls,
    Engine.execute nat Engine.sample_balances (Engine.sample_split "market-a")
      Engine.sample_sell Engine.sample_pair Engine.sample_request (0%nat, [])
    = (Engine.Executed r, (final, calls))
    /\ Engine.error (Engine.target_outcome r) = Some "gas error"%string
    /\ Engine.split_tx (Engine.target_outcome r) = None
    /\ Engine.total_spent r == 10.
Proof.
  destruct (C6_target_split_failure_is_isolated nat Engine.sample_balances
              (Engine.sample_split "market-a") Engine.sample_sell
              Engine.sample_pair Engine.sample_request
              0%nat 1%nat [] {| Engine.pol := 3 # 2; Engine.usdc_e := 100 |})
    as (_ & H); [reflexivity | reflexivity | ].
  destruct (H "gas error"%string 2%nat)
    as (r & final & calls & He & Herr & Htx & _ & Hc & _ & Ht & _);
    [reflexivity | ].
  exists r, final, calls. repeat split; trivial.
  rewrite Ht, Hc. reflexivity.
Defined.

(** The scenario of a balance of 100 and an amount of 10 with both legs
    going through. *)
Lemma C7_witness :
  exists r final calls,
    Engine.execute nat Engine.sample_balances (Engine.sample_split "none")
      Engine.sample_sell Engine.sample_pair Engine.sample_request (0%nat, [])
    = (Engine.Executed r, (final, calls))
    /\ Engine.success r = true
    /\ Engine.warnings r = []
    /\ Engine.total_spent r == 20.
Proof.
  destruct (C7_both_legs_succeed nat Engine.sample_balances
              (Engine.sample_split "none") Engine.sample_sell
              Engine.sample_pair Engine.sample_request
              0%nat 1%nat 2%nat 3%nat 4%nat 5%nat []
              {| Engine.pol := 3 # 2; Engine.usdc_e := 100 |}
              "tx-market-a"%string "tx-market-b"%string
              "order-market-a"%string "order-market-b"%string)
    as (r & final & He & Hs & Hw & Ht & _);
    try reflexivity.
  exists r, final. eexists. repeat split; [exact He | | | ]; trivial.
Defined.

(* ================================================================= *)
(** * Further properties of the modal *)

Section ModalBehaviour.
Import JS BuyPairModal.
Local Open Scope string_scope.

Ltac unlock_cases s :=
  unfold handleUnlock; destruct (String.eqb (password s) "").

(** Entering the executing step takes an enabled Confirm Purchase button. *)
Lemma executing_needs_enabled_confirm
    (p : Portfolio.t) (s : State) (e : Event) :
  step (dispatch p s e) = Step.executing ->
  step s = Step.executing \/ confirm_enabled s = true.
Proof.
  intros H.
  destruct (executing_entered_by_valid_confirm p s e H)
    as [Hs | (-> & _)]; [now left | ].
  destruct (click_confirm_cases p s) as [[He _] | [_ Hd]]; [now right | ].
  left. now rewrite Hd in H.
Qed.

(** While the wallet status is loading, absent, or reports a locked wallet,
    no event sends a request to the trading endpoint or moves the modal
    into the executing step. *)
Theorem no_purchase_without_unlocked_wallet
    (p : Portfolio.t) (s : State) (e : Event) :
  walletLoading s = true
  \/ match status s with Some st => unlocked st = false | None => True end ->
  requests (dispatch p s e) = requests s
  /\ (step (dispatch p s e) = Step.executing -> step s = Step.executing).
Proof.
  intros H.
  assert (Hc : confirm_enabled s = false).
  { destruct (confirm_enabled s) eqn:E; trivial.
    apply confirm_enabled_spec in E. destruct E as (_ & Hl & Hu & _).
    unfold needsUnlock in Hu. rewrite Hl in Hu. cbn in Hu.
    destruct H as [H | H]; [congruence | ].
    destruct (status s) as [st | ]; [ | discriminate].
    rewrite H in Hu. discriminate. }
  split.
  - destruct (dispatch_requests p s e) as [Hr | (_ & He & _)];
      [exact Hr | congruence].
  - intros Hx. destruct (executing_needs_enabled_confirm p s e Hx);
      [assumption | congruence].
Qed.

Lemma no_purchase_without_unlocked_wallet_witness :
  let s := run sample_portfolio initial
               [WalletRefreshed (Delivered (Some (wallet false "100")))] in
  requests (dispatch sample_portfolio s ClickConfirm) = []
  /\ render s = UnlockForm true.
Proof.
  cbv zeta.
  destruct (no_purchase_without_unlocked_wallet sample_portfolio
              (run sample_portfolio initial
                   [WalletRefreshed (Delivered (Some (wallet false "100")))])
              ClickConfirm) as (Hr & _).
  - right. vm_compute. reflexivity.
  - split; [exact Hr | vm_compute; reflexivity].
Defined.

(** With an empty password field no event starts an unlock call: the Unlock
    button is disabled and [handleUnlock], reached by the Enter key, returns
    at once. *)
Theorem empty_password_starts_no_unlock
    (p : Portfolio.t) (s : State) (e : Event) :
  password s = "" ->
  (unlocks_in_flight (dispatch p s e) <= unlocks_in_flight s)%nat
  /\ (e = ClickUnlock \/ e = PressEnter -> dispatch p s e = s).
Proof.
  intros Hp. split.
  - destruct e; cbn [dispatch].
    + destruct (render s); cbn; lia.
    + destruct (render s); cbn; lia.
    + destruct (click_confirm_cases p s) as [[_ Hd] | [_ Hd]];
        cbn [dispatch] in Hd; rewrite Hd; [ | lia].
      unfold handleBuy. destruct (hasSufficientBalance s); cbn; lia.
    + destruct (render s) as [ | [ | ] | | | | | ]; try lia.
      unfold handleUnlock. rewrite Hp. cbn. lia.
    + destruct (render s); try lia.
      unfold handleUnlock. rewrite Hp. cbn. lia.
    + destruct (render s); cbn; lia.
    + destruct (trades_in_flight s); [lia | ]. destruct r; cbn; lia.
    + destruct (unlocks_in_flight s) eqn:U; [lia | ].
      destruct r as [ | [ | ]]; cbn; rewrite U; cbn; lia.
    + destruct r; cbn; lia.
  - intros [-> | ->]; cbn [dispatch].
    + destruct (render s) as [ | [ | ] | | | | | ]; trivial.
      unfold handleUnlock. now rewrite Hp.
    + destruct (render s); trivial.
      unfold handleUnlock. now rewrite Hp.
Qed.

Lemma empty_password_starts_no_unlock_witness :
  let s := run sample_portfolio initial
               [WalletRefreshed (Delivered (Some (wallet false "100")))] in
  password s = "" /\ dispatch sample_portfolio s PressEnter = s.
Proof.
  cbv zeta. split; [reflexivity | ].
  destruct (empty_password_starts_no_unlock sample_portfolio
              (run sample_portfolio initial
                   [WalletRefreshed (Delivered (Some (wallet false "100")))])
              PressEnter) as (_ & H); [reflexivity | ].
  apply H. now right.
Defined.

(** The [unlocking] flag tells whether an unlock call is pending, and there
    is at most one. *)
Definition unlock_flag_accurate (s : State) : Prop :=
  (unlocks_in_flight s <= 1)%nat
  /\ (unlocks_in_flight s = 1%nat <-> unlocking s = true).

Lemma unlock_flag_accurate_step (p : Portfolio.t) (s : State) (e : Event) :
  e <> PressEnter -> unlock_flag_accurate s ->
  unlock_flag_accurate (dispatch p s e).
Proof.
  intros Hne (L & X). unfold unlock_flag_accurate.
  destruct e; cbn [dispatch]; try congruence.
  - destruct (render s); auto.
  - destruct (render s); auto.
  - destruct (click_confirm_cases p s) as [[_ Hd] | [_ Hd]];
      cbn [dispatch] in Hd; rewrite Hd; auto.
    unfold handleBuy. destruct (hasSufficientBalance s); auto.
  - destruct (render s) as [ | [ | ] | | | | | ] eqn:R; auto.
    assert (Hu : unlocking s = false).
    { unfold render in R. destruct (step s); try discriminate.
      - destruct (walletLoading s); try discriminate.
        destruct (needsUnlock s); try discriminate.
        injection R as R. now apply orb_false_iff in R.
      - destruct (result s); discriminate. }
    unlock_cases s; auto. cbn.
    assert (unlocks_in_flight s <> 1%nat) by (rewrite X; congruence).
    split; [lia | ]. split; [reflexivity | lia].
  - destruct (render s); auto.
  - destruct (trades_in_flight s); auto. destruct r; auto.
  - destruct (unlocks_in_flight s) as [ | n] eqn:U; [rewrite U; auto | ].
    assert (n = 0%nat) by lia. subst n.
    destruct r as [ | [ | ]]; cbn; rewrite U; cbn;
      (split; [lia | split; discriminate]).
  - destruct r; auto.
Qed.

(** As long as the Enter key is not used in the password field, at most one
    unlock call is pending at any time and the [unlocking] flag is true
    exactly while it is: the Unlock button, disabled while [unlocking],
    cannot start a second one. *)
Theorem unlock_button_never_doubles (p : Portfolio.t) (es : list Event) :
  Forall (fun e => e <> PressEnter) es ->
  unlock_flag_accurate (run p initial es).
Proof.
  intros H.
  assert (G : forall s, unlock_flag_accurate s ->
                        unlock_flag_accurate (run p s es)).
  { induction H as [ | e es He _ IH]; intros s Hs; cbn; trivial.
    apply IH. now apply unlock_flag_accurate_step. }
  apply G. unfold unlock_flag_accurate. cbn. split; [lia | ].
  split; discriminate.
Qed.

Lemma unlock_button_never_doubles_witness :
  unlocks_in_flight
    (run sample_portfolio initial
         [WalletRefreshed (Delivered (Some (wallet false "100")));
          ChangePassword "hunter2"; ClickUnlock; ClickUnlock]) = 1%nat.
Proof.
  apply (unlock_button_never_doubles sample_portfolio
           [WalletRefreshed (Delivered (Some (wallet false "100")));
            ChangePassword "hunter2"; ClickUnlock; ClickUnlock]).
  - repeat constructor; discriminate.
  - vm_compute. reflexivity.
Defined.

(** The step is never [unlock], and whenever it is [success] the result cell
    holds an answer whose [success] flag is set. *)
Definition presentable (s : State) : Prop :=
  step s <> Step.unlock
  /\ (step s = Step.success ->
      exists r, result s = Some r /\ Trade.success r = true).

Lemma presentable_step (p : Portfolio.t) (s : State) (e : Event) :
  presentable s -> presentable (dispatch p s e).
Proof.
  intros (N & R). unfold presentable.
  destruct e; cbn [dispatch].
  - destruct (render s); auto.
  - destruct (render s); auto.
  - destruct (click_confirm_cases p s) as [[_ Hd] | [_ Hd]];
      cbn [dispatch] in Hd; rewrite Hd; auto.
    unfold handleBuy. destruct (hasSufficientBalance s); cbn; auto.
    split; discriminate.
  - destruct (render s) as [ | [ | ] | | | | | ]; auto. unlock_cases s; auto.
  - destruct (render s); auto. unlock_cases s; auto.
  - destruct (render s); auto. cbn. split; discriminate.
  - destruct (trades_in_flight s); auto.
    destruct r as [ | | d]; cbn; try (split; discriminate).
    destruct (Trade.success d) eqn:D; split; try discriminate.
    intros _. now exists d.
  - destruct (unlocks_in_flight s); auto.
    destruct r as [ | [ | ]]; cbn; auto; split; discriminate.
  - destruct r; auto.
Qed.

(** The steps the modal goes through.  The step [unlock], though part of
    the [Step] type, is never entered: the unlock form belongs to the input
    step.  And the step is [success] only while the result cell holds the
    answer of a trade whose [success] flag is set: [setResult(data)] comes
    before [setStep], and nothing clears the cell. *)
Theorem success_step_holds_its_answer (p : Portfolio.t) (es : list Event) :
  step (run p initial es) <> Step.unlock
  /\ (step (run p initial es) = Step.success ->
      exists r,
        result (run p initial es) = Some r /\ Trade.success r = true).
Proof.
  assert (G : forall s, presentable s -> presentable (run p s es)).
  { induction es as [ | e es IH]; intros s Hs; cbn; trivial.
    apply IH. now apply presentable_step. }
  apply G. split; [discriminate | discriminate].
Qed.

(** A retry repeats the request.  When an accepted purchase has failed (the
    request was rejected, answered with an HTTP error, or answered with
    [success = false]) and the user presses Try Again and Confirm Purchase
    with nothing else changed, the modal sends a second request whose body
    equals the first one's. *)
Theorem retry_resubmits_the_same_request
    (p : Portfolio.t) (s : State) (r : BuyPairResponse) :
  confirm_enabled s = true ->
  unsuccessful r ->
  requests (run p s [ClickConfirm; TradeSettled r; ClickTryAgain; ClickConfirm])
  = requestBody p s :: requestBody p s :: requests s.
Proof.
  intros He Hr.
  destruct (confirm_enabled_spec s He) as (Hs & Hl & Hu & Hb & Hm).
  destruct (after_failed_attempt p s r He Hr) as (S1 & A1 & W1 & L1 & R1).
  cbv zeta in S1, A1, W1, L1, R1.
  change (run p s [ClickConfirm; TradeSettled r; ClickTryAgain; ClickConfirm])
    with (dispatch p (run p s [ClickConfirm; TradeSettled r; ClickTryAgain])
                   ClickConfirm).
  set (s1 := run p s [ClickConfirm; TradeSettled r; ClickTryAgain]) in *.
  destruct (checks_depend_on_amount_and_wallet p s s1 A1 W1 L1)
    as (Cb & Cm & Cu & Cr).
  assert (E1 : confirm_enabled s1 = true).
  { apply confirm_enabled_iff. repeat split; congruence. }
  rewrite (accepted_click p s1 E1). cbn [requests fetch_buy_pair].
  cbn [requests setExecutionStep setError setStep].
  now rewrite Cr, R1.
Qed.

Lemma retry_resubmits_the_same_request_witness :
  requests
    (run sample_portfolio (ready "100" "10")
         [ClickConfirm; TradeSettled (HttpError (Some "gas error"));
          ClickTryAgain; ClickConfirm])
  = [requestBody sample_portfolio (ready "100" "10");
     requestBody sample_portfolio (ready "100" "10")].
Proof.
  apply (retry_resubmits_the_same_request sample_portfolio (ready "100" "10")
           (HttpError (Some "gas error"))).
  - vm_compute. reflexivity.
  - exact I.
Defined.

Lemma detail_or_not_empty (d : option string) : detail_or "Trade failed" d <> "".
Proof.
  unfold detail_or. destruct d as [x | ]; [ | discriminate].
  destruct (String.eqb x "") eqn:E; [discriminate | ].
  now apply String.eqb_neq in E.
Qed.

(** What the user is told when an accepted purchase fails.  An HTTP error
    is reported with the server's [detail], or with "Trade failed" when
    there is none or it is empty, so never with an empty text; a rejected
    [fetch] with the error's message; but an answer that is [ok] and
    carries [success = false] leaves the error panel without any message,
    the error having been cleared when the request was sent. *)
Theorem failed_purchase_report (p : Portfolio.t) (s : State) :
  confirm_enabled s = true ->
  (forall data,
     Trade.success data = false ->
     render (run p s [ClickConfirm; TradeSettled (HttpOk data)])
     = ErrorPanel "Trade Failed" None)
  /\ (forall detail,
        render (run p s [ClickConfirm; TradeSettled (HttpError detail)])
        = ErrorPanel "Trade Failed" (Some (detail_or "Trade failed" detail))
        /\ detail_or "Trade failed" detail <> ""
        /\ (forall x, detail = Some x -> x <> "" ->
                      detail_or "Trade failed" detail = x))
  /\ (forall e,
        render (run p s [ClickConfirm; TradeSettled (Rejected e)])
        = ErrorPanel "Trade Failed" (Some (message_or "Trade failed" e))).
Proof.
  intros He. cbn [run fold_left]. rewrite (accepted_click p s He).
  split; [ | split].
  - intros data Hd. cbn. unfold render. cbn. now rewrite Hd.
  - intros detail. split; [reflexivity | ]. split.
    + apply detail_or_not_empty.
    + intros x -> Hx. cbn. apply String.eqb_neq in Hx. now rewrite Hx.
  - intros e. reflexivity.
Qed.

Lemma failed_purchase_report_witness :
  render (run sample_portfolio (ready "100" "10")
              [ClickConfirm; TradeSettled (HttpError (Some ""))])
  = ErrorPanel "Trade Failed" (Some "Trade failed").
Proof.
  destruct (failed_purchase_report sample_portfolio (ready "100" "10"))
    as (_ & H & _); [vm_compute; reflexivity | ].
  destruct (H (Some "")) as (E & _). exact E.
Defined.

(** [amountNum] is a number: [parseFloat(amount) || 0] is never [NaN]. *)
Lemma amountNum_not_NaN (s : State) : amountNum s <> NaN.
Proof.
  unfold amountNum, or_zero.
  destruct (parseFloat (amount s)); cbn; discriminate.
Qed.

Lemma below_minimum_iff (s : State) :
  meetsMinimum s = false <-> lt (amountNum s) MIN_AMOUNT = true.
Proof.
  pose proof (amountNum_not_NaN s) as N.
  unfold meetsMinimum, ge, lt.
  generalize dependent (amountNum s). intros x N.
  assert (M : MIN_AMOUNT = S754_finite false 5629499534213120 (-50))
    by (vm_compute; reflexivity).
  rewrite M. clear M.
  destruct x as [b | b | | b m e].
  - cbn [SFcompare]. intuition congruence.
  - cbn [SFcompare]. destruct b; intuition congruence.
  - exfalso. apply N. reflexivity.
  - cbn [SFcompare]. destruct b; [intuition congruence | ].
    destruct (e ?= -50)%Z; try (intuition congruence).
    destruct (Pos.compare_cont Eq m 5629499534213120); intuition congruence.
Qed.

(** The hint "Minimum $5 required" is on screen exactly when the amount is
    a positive number below 5.  A negative amount disables Confirm Purchase
    as well, but without the hint; so does an empty or unparsable one. *)
Theorem minimum_hint_shown_for_positive_amounts_only
    (s : State) (d h b : bool) (m : option string) :
  render s = InputForm d h b m ->
  h = (gt (amountNum s) (of_Z 0) && lt (amountNum s) MIN_AMOUNT)%bool
  /\ (lt (amountNum s) (of_Z 0) = true \/ truthy (parseFloat (amount s)) = false ->
      d = true /\ h = false).
Proof.
  intros R.
  assert (E : d = (negb (hasSufficientBalance s) || negb (meetsMinimum s))%bool
              /\ h = (negb (meetsMinimum s) && gt (amountNum s) (of_Z 0))%bool).
  { unfold render in R. destruct (step s); try discriminate.
    - destruct (walletLoading s); try discriminate.
      destruct (needsUnlock s); try discriminate.
      injection R as <- <- _ _. now split.
    - destruct (result s); discriminate. }
  destruct E as (-> & ->). split.
  - destruct (meetsMinimum s) eqn:M; cbn [negb andb].
    + destruct (lt (amountNum s) MIN_AMOUNT) eqn:L.
      * apply below_minimum_iff in L. congruence.
      * symmetry. apply andb_false_r.
    + apply below_minimum_iff in M. rewrite M. symmetry. apply andb_true_r.
  - intros [H | H].
    + assert (L : lt (amountNum s) MIN_AMOUNT = true
                  /\ gt (amountNum s) (of_Z 0) = false).
      { revert H. unfold lt, gt.
        assert (M : MIN_AMOUNT = S754_finite false 5629499534213120 (-50))
          by (vm_compute; reflexivity).
        assert (Z0 : of_Z 0 = S754_zero false) by (vm_compute; reflexivity).
        rewrite M, Z0. clear M Z0.
        generalize (amountNum s). intros [x | x | | x y z];
          cbn [SFcompare]; try discriminate;
          destruct x; try discriminate; auto. }
      destruct L as (L & G). apply below_minimum_iff in L.
      rewrite L, G. split; [apply orb_true_r | reflexivity].
    + assert (A : amountNum s = pos_zero) by (now apply or_zero_falsy).
      assert (M : meetsMinimum s = false).
      { unfold meetsMinimum. rewrite A. vm_compute. reflexivity. }
      assert (G : gt (amountNum s) (of_Z 0) = false).
      { rewrite A. vm_compute. reflexivity. }
      rewrite M, G. split; [apply orb_true_r | reflexivity].
Qed.

Lemma minimum_hint_shown_for_positive_amounts_only_witness :
  render (ready "100" "-3") = InputForm true false true None
  /\ (true = true /\ false = false).
Proof.
  split; [vm_compute; reflexivity | ].
  destruct (minimum_hint_shown_for_positive_amounts_only (ready "100" "-3")
              true false true None) as (_ & H); [vm_compute; reflexivity | ].
  apply H. left. vm_compute. reflexivity.
Defined.

End ModalBehaviour.

(* ================================================================= *)
(** * Properties of the API proxy *)

Section ProxyFacts.
Import Proxy.
Local Open Scope string_scope.

(** How many pairs of [l] are called [name]. *)
Definition occurrences (name : string) (l : Pairs) : nat :=
  List.length (filter (fun kv => String.eqb (fst kv) name) l).

Lemma eqb_other (a b c : string) :
  String.eqb a b = true -> c <> b -> String.eqb a c = false.
Proof.
  intros H N. apply String.eqb_eq in H. subst a.
  apply String.eqb_neq. congruence.
Qed.

Lemma get_remove_same (k : string) (l : Pairs) : get k (remove_name k l) = None.
Proof.
  induction l as [ | [a v] l IH]; cbn; trivial.
  destruct (String.eqb a k) eqn:E; cbn; trivial. now rewrite E.
Qed.

Lemma get_remove_other (k k' : string) (l : Pairs) :
  k' <> k -> get k' (remove_name k l) = get k' l.
Proof.
  intros N. induction l as [ | [a v] l IH]; cbn; trivial.
  destruct (String.eqb a k) eqn:E; cbn.
  - rewrite (eqb_other a k k' E N). exact IH.
  - now rewrite IH.
Qed.

Lemma get_set_same (k v : string) (l : Pairs) : get k (set k v l) = Some v.
Proof.
  induction l as [ | [a w] l IH]; cbn.
  - now rewrite String.eqb_refl.
  - destruct (String.eqb a k) eqn:E; cbn.
    + now rewrite String.eqb_refl.
    + now rewrite E.
Qed.

Lemma get_set_other (k k' v : string) (l : Pairs) :
  k' <> k -> get k' (set k v l) = get k' l.
Proof.
  intros N. induction l as [ | [a w] l IH]; cbn.
  - apply String.eqb_neq in N. rewrite String.eqb_sym. now rewrite N.
  - destruct (String.eqb a k) eqn:E; cbn.
    + rewrite (eqb_other a k k' E N).
      assert (X : String.eqb k k' = false).
      { apply String.eqb_neq. congruence. }
      rewrite X. now apply get_remove_other.
    + destruct (String.eqb a k'); trivial.
Qed.

Lemma occurrences_remove_same (k : string) (l : Pairs) :
  occurrences k (remove_name k l) = 0%nat.
Proof.
  unfold occurrences. induction l as [ | [a v] l IH]; cbn; trivial.
  destruct (String.eqb a k) eqn:E; cbn; trivial. now rewrite E.
Qed.

Lemma occurrences_remove_other (k k' : string) (l : Pairs) :
  k' <> k -> occurrences k' (remove_name k l) = occurrences k' l.
Proof.
  intros N. unfold occurrences.
  induction l as [ | [a v] l IH]; cbn; trivial.
  destruct (String.eqb a k) eqn:E; cbn.
  - rewrite (eqb_other a k k' E N). exact IH.
  - destruct (String.eqb a k'); cbn; now rewrite IH.
Qed.

Lemma occurrences_set_same (k v : string) (l : Pairs) :
  occurrences k (set k v l) = 1%nat.
Proof.
  induction l as [ | [a w] l IH]; cbn.
  - unfold occurrences. cbn. now rewrite String.eqb_refl.
  - destruct (String.eqb a k) eqn:E.
    + unfold occurrences. cbn. rewrite String.eqb_refl. cbn.
      f_equal. apply occurrences_remove_same.
    + unfold occurrences in *. cbn. now rewrite E.
Qed.

Lemma occurrences_set_other (k k' v : string) (l : Pairs) :
  k' <> k -> occurrences k' (set k v l) = occurrences k' l.
Proof.
  intros N.
  assert (X : String.eqb k k' = false).
  { apply String.eqb_neq. congruence. }
  induction l as [ | [a w] l IH]; cbn.
  - unfold occurrences. cbn. now rewrite X.
  - destruct (String.eqb a k) eqn:E.
    + unfold occurrences. cbn. rewrite X, (eqb_other a k k' E N).
      apply occurrences_remove_other, N.
    + unfold occurrences in *. cbn.
      destruct (String.eqb a k'); cbn; now rewrite IH.
Qed.

(** The loop both header copies and the query copy share: the pairs whose
    normalized name [keep] accepts are [set] one after the other, their
    values taken through [val]. *)
Definition copy (keep : string -> bool) (norm val : string -> string)
    (entries init : Pairs) : Pairs :=
  fold_left
    (fun acc kv =>
       if keep (norm (fst kv)) then set (norm (fst kv)) (val (snd kv)) acc
       else acc)
    entries init.

Lemma get_copy (keep : string -> bool) (norm val : string -> string)
    (name : string) (entries init : Pairs) :
  get name (copy keep norm val entries init)
  = match last_given keep norm name entries with
    | Some v => Some (val v)
    | None => get name init
    end.
Proof.
  revert init. induction entries as [ | [k v] es IH]; intros init; cbn; trivial.
  change (fold_left _ es ?i) with (copy keep norm val es i). rewrite IH.
  destruct (last_given keep norm name es); trivial.
  destruct (keep (norm k)) eqn:K; cbn; trivial.
  destruct (String.eqb (norm k) name) eqn:E.
  - apply String.eqb_eq in E. subst name. apply get_set_same.
  - apply String.eqb_neq in E. apply get_set_other. congruence.
Qed.

Lemma occurrences_copy_given (keep : string -> bool) (norm val : string -> string)
    (name : string) (entries init : Pairs) :
  last_given keep norm name entries <> None ->
  occurrences name (copy keep norm val entries init) = 1%nat.
Proof.
  assert (Kept : forall es i, occurrences name i = 1%nat ->
                              occurrences name (copy keep norm val es i) = 1%nat).
  { induction es as [ | [k v] es IH]; intros i Hi; cbn; trivial.
    change (fold_left _ es ?j) with (copy keep norm val es j). apply IH.
    destruct (keep (norm k)); trivial.
    destruct (String.eqb (norm k) name) eqn:E.
    - apply String.eqb_eq in E. subst name. apply occurrences_set_same.
    - apply String.eqb_neq in E. rewrite occurrences_set_other; congruence. }
  revert init. induction entries as [ | [k v] es IH]; intros init H; cbn in *.
  - congruence.
  - change (fold_left _ es ?j) with (copy keep norm val es j).
    destruct (last_given keep norm name es) eqn:L.
    + apply IH. discriminate.
    + destruct (keep (norm k)) eqn:K; cbn in H; [ | congruence].
      destruct (String.eqb (norm k) name) eqn:E; [ | congruence].
      apply String.eqb_eq in E. subst name.
      apply Kept, occurrences_set_same.
Qed.

Lemma last_given_dropped (keep : string -> bool) (norm : string -> string)
    (name : string) (entries : Pairs) :
  keep name = false -> last_given keep norm name entries = None.
Proof.
  intros H. induction entries as [ | [k v] es IH]; cbn; trivial.
  rewrite IH. destruct (String.eqb (norm k) name) eqn:E.
  - apply String.eqb_eq in E. rewrite E, H. reflexivity.
  - now rewrite andb_false_r.
Qed.

(** Query parameters reach the backend one per name.  After the copy, a
    name the request gives occurs exactly once and carries the value of its
    last occurrence in the request (so [?tag=a&tag=b] arrives as [tag=b]);
    a name the request does not give keeps what the backend URL had. *)
Theorem forwarded_query_keeps_last_value
    (request_query url_query : Pairs) (name : string) :
  get name (forward_query request_query url_query)
  = match last_given (fun _ => true) (fun k => k) name request_query with
    | Some v => Some v
    | None => get name url_query
    end
  /\ (last_given (fun _ => true) (fun k => k) name request_query <> None ->
      occurrences name (forward_query request_query url_query) = 1%nat).
Proof.
  change (forward_query request_query url_query)
    with (copy (fun _ => true) (fun k => k) (fun v => v) request_query url_query).
  split; [apply get_copy | apply occurrences_copy_given].
Qed.

Lemma forwarded_query_keeps_last_value_witness :
  get "tag" (forward_query [("tag", "a"); ("q", "x"); ("tag", "b")] []) = Some "b"
  /\ occurrences "tag"
       (forward_query [("tag", "a"); ("q", "x"); ("tag", "b")] []) = 1%nat.
Proof.
  destruct (forwarded_query_keeps_last_value
              [("tag", "a"); ("q", "x"); ("tag", "b")] [] "tag") as (G & O).
  split; [exact G | apply O; discriminate].
Defined.

(* ----------------------------------------------------------------- *)
(** *** Iterating a header list *)

Lemma lower_ascii_idem (c : ascii) : lower_ascii (lower_ascii c) = lower_ascii c.
Proof. destruct c as [[] [] [] [] [] [] [] []]; reflexivity. Qed.

Lemma toLowerCase_idem (s : string) : toLowerCase (toLowerCase s) = toLowerCase s.
Proof.
  induction s as [ | c s IH]; cbn; trivial.
  now rewrite lower_ascii_idem, IH.
Qed.

Lemma In_insert_name (x n : string) (l : list string) :
  In x (insert_name n l) <-> x = n \/ In x l.
Proof.
  induction l as [ | m l IH]; cbn.
  - intuition congruence.
  - destruct (String.compare n m) eqn:C; cbn.
    + apply String.compare_eq_iff in C. subst m. intuition congruence.
    + intuition congruence.
    + rewrite IH. intuition congruence.
Qed.

Lemma In_sorted_names (x : string) (h : Pairs) :
  In x (sorted_names h)
  <-> exists k, In k (map fst h) /\ toLowerCase k = x.
Proof.
  unfold sorted_names.
  assert (G : forall acc,
            In x (fold_left
                    (fun acc kv => insert_name (toLowerCase (fst kv)) acc) h acc)
            <-> In x acc \/ exists k, In k (map fst h) /\ toLowerCase k = x).
  { induction h as [ | [k v] h IH]; intros acc; cbn [fold_left map fst].
    - split; [now left | ]. intros [H | (k & [] & _)]. exact H.
    - rewrite IH, In_insert_name. split.
      + intros [[-> | H] | (k' & H & E)]; auto.
        * right. exists k. split; [now left | reflexivity].
        * right. exists k'. split; [now right | exact E].
      + intros [H | (k' & [<- | H] & E)]; auto.
        right. now exists k'. }
  rewrite G. cbn. intuition.
Qed.

Lemma values_of_given (k : string) (h : Pairs) :
  In k (map fst h) -> values_of (toLowerCase k) h <> [].
Proof.
  induction h as [ | [a v] h IH]; cbn; [easy | ].
  intros [-> | H].
  - now rewrite String.eqb_refl.
  - destruct (String.eqb (toLowerCase a) (toLowerCase k)); [discriminate | auto].
Qed.

Lemma last_given_app (keep : string -> bool) (norm : string -> string)
    (name : string) (l1 l2 : Pairs) :
  last_given keep norm name (l1 ++ l2)%list
  = match last_given keep norm name l2 with
    | Some w => Some w
    | None => last_given keep norm name l1
    end.
Proof.
  induction l1 as [ | [k v] l1 IH]; cbn.
  - now destruct (last_given keep norm name l2).
  - rewrite IH. now destruct (last_given keep norm name l2).
Qed.

(** The value iteration hands over last for a name: the joined values, or
    for [set-cookie] the last of them. *)
Definition combined (h : Pairs) (n : string) : string :=
  if String.eqb n "set-cookie" then last (values_of n h) ""
  else String.concat ", " (values_of n h).

Lemma last_given_values (m n : string) (vs : list string) :
  toLowerCase m = m ->
  last_given (fun _ => true) toLowerCase n (map (pair m) vs)
  = if String.eqb m n
    then match vs with [] => None | _ => Some (last vs "") end
    else None.
Proof.
  intros Hm. induction vs as [ | a vs IH]; cbn [map last_given].
  - now destruct (String.eqb m n).
  - rewrite IH, Hm. cbn [andb].
    destruct (String.eqb m n); [ | reflexivity].
    destruct vs; reflexivity.
Qed.

Lemma last_given_group (h : Pairs) (m n : string) :
  toLowerCase m = m -> values_of m h <> [] ->
  last_given (fun _ => true) toLowerCase n (group h m)
  = if String.eqb m n then Some (combined h m) else None.
Proof.
  intros Hm Hv. unfold group, combined.
  destruct (String.eqb m "set-cookie").
  - rewrite last_given_values; trivial.
    destruct (values_of m h); [congruence | reflexivity].
  - cbn. rewrite Hm. cbn. reflexivity.
Qed.

Lemma last_given_groups (h : Pairs) (n : string) (ns : list string) :
  (forall m, In m ns -> toLowerCase m = m /\ values_of m h <> []) ->
  last_given (fun _ => true) toLowerCase n (flat_map (group h) ns)
  = if existsb (fun m => String.eqb m n) ns then Some (combined h n) else None.
Proof.
  induction ns as [ | m ns IH]; intros H; cbn [flat_map existsb]; trivial.
  rewrite last_given_app, IH by (intros x Hx; apply H; now right).
  destruct (existsb (fun m => String.eqb m n) ns).
  - now rewrite orb_true_r.
  - rewrite orb_false_r.
    destruct (H m (or_introl eq_refl)) as (Hm & Hv).
    rewrite last_given_group by assumption.
    destruct (String.eqb m n) eqn:E; trivial.
    apply String.eqb_eq in E. now subst.
Qed.

(** What iterating a header list gives last for [name]: nothing when no
    header is called so, in lower case; otherwise the combined value. *)
Lemma last_given_entries (h : Pairs) (n : string) :
  last_given (fun _ => true) toLowerCase n (entries h)
  = if existsb (fun m => String.eqb m n) (sorted_names h)
    then Some (combined h n) else None.
Proof.
  apply last_given_groups. intros m Hm.
  apply In_sorted_names in Hm. destruct Hm as (k & Hk & <-).
  split; [apply toLowerCase_idem | now apply values_of_given].
Qed.

Lemma given_is_listed (h : Pairs) (name : string) :
  In name (map fst h) ->
  existsb (fun m => String.eqb m (toLowerCase name)) (sorted_names h) = true.
Proof.
  intros H. apply existsb_exists. exists (toLowerCase name). split.
  - apply In_sorted_names. now exists name.
  - apply String.eqb_refl.
Qed.

Lemma not_given_is_not_listed (h : Pairs) (n : string) :
  (forall k, In k (map fst h) -> toLowerCase k <> n) ->
  existsb (fun m => String.eqb m n) (sorted_names h) = false.
Proof.
  intros H. destruct (existsb _ (sorted_names h)) eqn:E; trivial.
  apply existsb_exists in E. destruct E as (m & Hm & E).
  apply String.eqb_eq in E. subst m.
  apply In_sorted_names in Hm. destruct Hm as (k & Hk & Hn).
  now contradiction (H k Hk).
Qed.

Definition not_host (name : string) : bool := negb (String.eqb name "host").

Definition not_encoding (name : string) : bool :=
  negb (existsb (String.eqb name) ["content-encoding"; "transfer-encoding"]).

Lemma forward_headers_is_copy (request_headers : Pairs) :
  forward_headers request_headers
  = copy not_host toLowerCase normalize (entries request_headers) [].
Proof. reflexivity. Qed.

Lemma response_headers_is_copy (backend_headers : Pairs) :
  response_headers backend_headers
  = copy not_encoding toLowerCase normalize (entries backend_headers) [].
Proof. reflexivity. Qed.

Lemma last_given_kept (keep : string -> bool) (norm : string -> string)
    (name : string) (l : Pairs) :
  keep name = true ->
  last_given keep norm name l = last_given (fun _ => true) norm name l.
Proof.
  intros K. induction l as [ | [k v] l IH]; cbn; trivial.
  rewrite IH. destruct (last_given (fun _ => true) norm name l); trivial.
  destruct (String.eqb (norm k) name) eqn:E.
  - apply String.eqb_eq in E. rewrite E, K. reflexivity.
  - now rewrite andb_false_r.
Qed.

Lemma occurrences_copy_dropped (keep : string -> bool) (norm val : string -> string)
    (name : string) (entries init : Pairs) :
  keep name = false ->
  occurrences name (copy keep norm val entries init) = occurrences name init.
Proof.
  intros K. unfold copy. revert init.
  induction entries as [ | [k v] es IH]; intros init; cbn [fold_left]; trivial.
  rewrite IH. cbn [fst snd].
  destruct (keep (norm k)) eqn:E; trivial.
  apply occurrences_set_other. congruence.
Qed.

(** What a header copy does, whatever names it leaves out.  A name left out
    is absent from the copy.  A name let through that the source gives, in
    any spelling and any number of times, occurs once in the copy, in lower
    case, with the value iteration combined for it.  A name the source does
    not give is absent. *)
Lemma copy_of_headers (keep : string -> bool) (source : Pairs) :
  (forall name,
     keep name = false ->
     get name (copy keep toLowerCase normalize (entries source) []) = None
     /\ occurrences name (copy keep toLowerCase normalize (entries source) [])
        = 0%nat)
  /\ (forall name,
        keep (toLowerCase name) = true ->
        In name (map fst source) ->
        occurrences (toLowerCase name)
          (copy keep toLowerCase normalize (entries source) []) = 1%nat
        /\ get (toLowerCase name)
             (copy keep toLowerCase normalize (entries source) [])
           = Some (normalize (combined source (toLowerCase name))))
  /\ (forall name,
        (forall k, In k (map fst source) -> toLowerCase k <> name) ->
        get name (copy keep toLowerCase normalize (entries source) []) = None).
Proof.
  split; [ | split].
  - intros name K. split.
    + rewrite get_copy, last_given_dropped; trivial.
    + now rewrite occurrences_copy_dropped.
  - intros name K Hin.
    assert (L : last_given keep toLowerCase (toLowerCase name) (entries source)
                = Some (combined source (toLowerCase name))).
    { rewrite last_given_kept by exact K.
      now rewrite last_given_entries, given_is_listed. }
    split.
    + apply occurrences_copy_given. congruence.
    + rewrite get_copy. now rewrite L.
  - intros name H. rewrite get_copy.
    destruct (keep name) eqn:K.
    + rewrite last_given_kept by exact K.
      now rewrite last_given_entries, not_given_is_not_listed.
    + now rewrite last_given_dropped.
Qed.

(** The backend never receives the caller's [host] header, however it is
    spelled.  Every other header of the request arrives once, under its
    lower-cased name, and what arrives is what iterating the request's
    headers combines for that name: the values of all its occurrences, in
    order, joined with a comma and a space (for [set-cookie], whose values
    are iterated one by one and [set] one over the other, the last value).
    Nothing arrives under a name the request does not carry. *)
Theorem forwarded_headers_drop_host_only
    (request_headers : Pairs) (name : string) :
  get "host" (forward_headers request_headers) = None
  /\ occurrences "host" (forward_headers request_headers) = 0%nat
  /\ (toLowerCase name <> "host" ->
      In name (map fst request_headers) ->
      occurrences (toLowerCase name) (forward_headers request_headers) = 1%nat
      /\ get (toLowerCase name) (forward_headers request_headers)
         = Some (normalize (combined request_headers (toLowerCase name))))
  /\ ((forall k, In k (map fst request_headers) -> toLowerCase k <> name) ->
      get name (forward_headers request_headers) = None).
Proof.
  rewrite forward_headers_is_copy.
  destruct (copy_of_headers not_host request_headers) as (D & F & A).
  destruct (D "host" eq_refl) as (D1 & D2).
  split; [exact D1 | ]. split; [exact D2 | ]. split; [ | apply A].
  intros H Hin. apply F; trivial.
  unfold not_host. apply String.eqb_neq in H. now rewrite H.
Qed.

Lemma forwarded_headers_drop_host_only_witness :
  let given := [("Host", "app.example"); ("X-Tag", "a");
                ("Content-Type", "application/json"); ("x-tag", "b")] in
  get "host" (forward_headers given) = None
  /\ get "x-tag" (forward_headers given) = Some "a, b"
  /\ occurrences "x-tag" (forward_headers given) = 1%nat.
Proof.
  cbv zeta.
  destruct (forwarded_headers_drop_host_only
              [("Host", "app.example"); ("X-Tag", "a");
               ("Content-Type", "application/json"); ("x-tag", "b")]
              "X-Tag") as (G & _ & F & _).
  split; [exact G | ].
  destruct F as (O & V); [discriminate | cbn; auto | ].
  split; [exact V | exact O].
Defined.

(** The answer of the proxy never carries the backend's [content-encoding]
    or [transfer-encoding] header.  Every other header of the backend's
    answer is passed on once, under its lower-cased name, with what
    iterating the answer's headers combines for that name: the values of
    all its occurrences joined with a comma and a space, and for
    [set-cookie] the last value only.  Status, status text and body are the
    backend's own. *)
Theorem response_drops_encoding_headers_only (r : Response) (name : string) :
  status (proxy_response (Some r)) = status r
  /\ statusText (proxy_response (Some r)) = statusText r
  /\ response_body (proxy_response (Some r)) = response_body r
  /\ get "content-encoding" (response_items (proxy_response (Some r))) = None
  /\ get "transfer-encoding" (response_items (proxy_response (Some r))) = None
  /\ (not_encoding (toLowerCase name) = true ->
      In name (map fst (response_items r)) ->
      occurrences (toLowerCase name) (response_items (proxy_response (Some r)))
      = 1%nat
      /\ get (toLowerCase name) (response_items (proxy_response (Some r)))
         = Some (normalize (combined (response_items r) (toLowerCase name))))
  /\ ((forall k, In k (map fst (response_items r)) -> toLowerCase k <> name) ->
      get name (response_items (proxy_response (Some r))) = None).
Proof.
  cbn [proxy_response status statusText response_body response_items].
  rewrite response_headers_is_copy.
  destruct (copy_of_headers not_encoding (response_items r)) as (D & F & A).
  destruct (D "content-encoding" eq_refl) as (D1 & _).
  destruct (D "transfer-encoding" eq_refl) as (D2 & _).
  repeat split; trivial; try (now apply F). apply A.
Qed.

Lemma response_drops_encoding_headers_only_witness :
  let r := {| status := 404; statusText := "Not Found";
              response_items := [("Content-Encoding", "gzip");
                                 ("Vary", "Origin");
                                 ("Set-Cookie", "a=1");
                                 ("vary", "Accept");
                                 ("set-cookie", "b=2")];
              response_body := Passed "{}" |} in
  status (proxy_response (Some r)) = 404%nat
  /\ get "vary" (response_items (proxy_response (Some r)))
     = Some "Origin, Accept"
  /\ get "set-cookie" (response_items (proxy_response (Some r))) = Some "b=2".
Proof.
  cbv zeta.
  destruct (response_drops_encoding_headers_only
              {| status := 404; statusText := "Not Found";
                 response_items := [("Content-Encoding", "gzip");
                                    ("Vary", "Origin");
                                    ("Set-Cookie", "a=1");
                                    ("vary", "Accept");
                                    ("set-cookie", "b=2")];
                 response_body := Passed "{}" |} "Vary")
    as (S & _ & _ & _ & _ & F & _).
  split; [exact S | ].
  destruct F as (_ & V); [reflexivity | cbn; auto | ].
  split; [exact V | vm_compute; reflexivity].
Defined.

End ProxyFacts.

(* ================================================================= *)
(** * Properties of the wallet provider *)

Section WalletProviderFacts.
Import WalletProvider.
Local Open Scope string_scope.

Definition delivered (r : StatusResponse) : bool :=
  match r with StatusOk _ => true | _ => false end.

Lemma after_refreshes_last (rs : list StatusResponse) (r : StatusResponse) :
  after_refreshes (rs ++ [r]) = refresh_resume r (after_refreshes rs).
Proof. unfold after_refreshes. now rewrite fold_left_app. Qed.

(** After a refresh the provider is not loading any more.  Its error cell
    is empty exactly when the latest refresh was answered ok, and its
    status is then the body of that answer, stored unchecked: a body of
    [null] leaves the provider with neither a status nor an error, and that
    is the only way it gets there.  A refresh that fails always leaves an
    error. *)
Theorem provider_after_a_refresh
    (rs : list StatusResponse) (r : StatusResponse) :
  loading (after_refreshes (rs ++ [r])) = false
  /\ (error (after_refreshes (rs ++ [r])) = None <-> delivered r = true)
  /\ (forall data,
        r = StatusOk data -> status (after_refreshes (rs ++ [r])) = data)
  /\ (status (after_refreshes (rs ++ [r])) = None ->
      error (after_refreshes (rs ++ [r])) = None ->
      r = StatusOk None).
Proof.
  rewrite after_refreshes_last.
  destruct r as [e | | data]; cbn; repeat split;
    try discriminate; try congruence.
Qed.

(** A refresh that fails keeps the status of the last refresh that
    delivered one, and says why it failed: "Failed to fetch wallet status"
    for a response that is not ok, the error's message for a rejected
    request, "Unknown error" for a thrown value that is no [Error]. *)
Theorem failed_refresh_keeps_last_status
    (rs : list StatusResponse) (r : StatusResponse) :
  delivered r = false ->
  status (after_refreshes (rs ++ [r])) = status (after_refreshes rs)
  /\ loading (after_refreshes (rs ++ [r])) = false
  /\ error (after_refreshes (rs ++ [r]))
     = Some match r with
            | StatusThrew e => BuyPairModal.message_or "Unknown error" e
            | _ => "Failed to fetch wallet status"
            end.
Proof.
  intros H. rewrite after_refreshes_last.
  destruct r; try discriminate; repeat split.
Qed.

Lemma failed_refresh_keeps_last_status_witness :
  status (after_refreshes
            [StatusOk (Some (BuyPairModal.wallet true "100")); StatusNotOk])
  = Some (BuyPairModal.wallet true "100").
Proof.
  destruct (failed_refresh_keeps_last_status
              [StatusOk (Some (BuyPairModal.wallet true "100"))] StatusNotOk)
    as (S & _); [reflexivity | ].
  exact S.
Defined.

(** The modal's picture of the wallet follows the provider: its [status]
    and [walletLoading] cells go through a refresh as the provider's
    [status] and [loading] do. *)
Lemma modal_follows_provider
    (r : StatusResponse) (w : State) (m : BuyPairModal.State) :
  BuyPairModal.status m = status w ->
  BuyPairModal.status (BuyPairModal.refresh_resume (seen_by_consumers r) m)
  = status (refresh_resume r w)
  /\ BuyPairModal.walletLoading
       (BuyPairModal.refresh_resume (seen_by_consumers r) m)
     = loading (refresh_resume r w).
Proof. intros H. destruct r; cbn; auto. Qed.

(** A wrong password in the modal.  When the POST to [/wallet/unlock] is
    answered with a response that is not ok, [unlock] throws before any
    refresh and the modal shows the server's [detail], or "Invalid
    password" when there is none or it is empty; the typed password, the
    step and the wallet status stay as they are, so the unlock form remains
    on screen, and nothing is sent to the trading endpoint. *)
Theorem wrong_password_in_the_modal
    (p : BuyPairModal.Portfolio.t) (s : BuyPairModal.State)
    (detail : option string) (st : StatusResponse) :
  BuyPairModal.unlocks_in_flight s <> 0%nat ->
  let s' := BuyPairModal.dispatch p s
              (BuyPairModal.UnlockSettled
                 (unlock_seen_by_modal (PostNotOk detail) st)) in
  BuyPairModal.unlockError s'
  = Some (BuyPairModal.detail_or "Invalid password" detail)
  /\ BuyPairModal.detail_or "Invalid password" detail <> ""
  /\ BuyPairModal.unlocking s' = false
  /\ BuyPairModal.password s' = BuyPairModal.password s
  /\ BuyPairModal.step s' = BuyPairModal.step s
  /\ BuyPairModal.status s' = BuyPairModal.status s
  /\ BuyPairModal.requests s' = BuyPairModal.requests s.
Proof.
  intros H. cbv zeta. cbn [BuyPairModal.dispatch].
  destruct (BuyPairModal.unlocks_in_flight s) eqn:U; [congruence | ].
  cbn. repeat split.
  unfold BuyPairModal.detail_or. destruct detail as [x | ]; [ | discriminate].
  destruct (String.eqb x "") eqn:E; [discriminate | ].
  now apply String.eqb_neq in E.
Qed.

Lemma wrong_password_in_the_modal_witness :
  BuyPairModal.unlockError
    (BuyPairModal.dispatch BuyPairModal.sample_portfolio
       BuyPairModal.two_unlocks_pending
       (BuyPairModal.UnlockSettled
          (unlock_seen_by_modal (PostNotOk None) StatusNotOk)))
  = Some "Invalid password".
Proof.
  destruct (wrong_password_in_the_modal BuyPairModal.sample_portfolio
              BuyPairModal.two_unlocks_pending None StatusNotOk)
    as (E & _); [vm_compute; discriminate | ].
  exact E.
Defined.

End WalletProviderFacts.

(* ================================================================= *)
(** * Properties of the wallet dropdown *)

Section WalletDropdownFacts.
Import WalletDropdown.
Local Open Scope string_scope.

(** What the handlers check before they call the provider. *)
Definition well_formed (op : Operation) : Prop :=
  match op with
  | CallUnlock pw => pw <> ""
  | CallGenerate pw => (8 <= JS.utf16_length pw)%nat
  | CallImportKey key pw => key <> "" /\ (8 <= JS.utf16_length pw)%nat
  | CallLock | CallApproveContracts => True
  end.

Lemma not_too_short (pw : string) :
  too_short pw = false -> (8 <= JS.utf16_length pw)%nat.
Proof.
  unfold too_short. intros H. apply orb_false_iff in H. destruct H as (_ & H).
  apply Nat.ltb_ge in H. exact H.
Qed.

Lemma handlers_call_well_formed (s : State) :
  (calls (handleUnlock s) = calls s
   \/ exists op, calls (handleUnlock s) = op :: calls s /\ well_formed op)
  /\ (calls (handleGenerate s) = calls s
      \/ exists op, calls (handleGenerate s) = op :: calls s /\ well_formed op)
  /\ (calls (handleImport s) = calls s
      \/ exists op, calls (handleImport s) = op :: calls s /\ well_formed op).
Proof.
  repeat split.
  - unfold handleUnlock. destruct (String.eqb (password s) "") eqn:E; auto.
    right. eexists. split; [reflexivity | ]. cbn. now apply String.eqb_neq.
  - unfold handleGenerate. destruct (too_short (password s)) eqn:E; auto.
    right. eexists. split; [reflexivity | ]. cbn. now apply not_too_short.
  - unfold handleImport. destruct (too_short (password s)) eqn:E; auto.
    destruct (String.eqb (privateKey s) "") eqn:K; auto.
    right. eexists. split; [reflexivity | ]. cbn. split.
    + now apply String.eqb_neq.
    + now apply not_too_short.
Qed.

Lemma dispatch_calls (s : State) (e : Event) :
  calls (dispatch s e) = calls s
  \/ exists op, calls (dispatch s e) = op :: calls s /\ well_formed op.
Proof.
  destruct (handlers_call_well_formed s) as (U & G & I).
  destruct e; cbn [dispatch]; unfold when;
    try (match goal with |- context [if ?c then _ else _] => destruct c end);
    auto.
  - right. exists CallLock. split; [reflexivity | exact Logic.I].
  - right. exists CallApproveContracts. split; [reflexivity | exact Logic.I].
  - left. unfold copyAddress. destruct (status s) as [st | ]; trivial.
    destruct (BuyPairModal.address st) as [a | ]; trivial.
    destruct (String.eqb a ""); reflexivity.
  - left. destruct k, o; reflexivity.
Qed.

(** A password of five accented letters takes ten bytes and has a length
    of five: the generate form refuses it and calls nothing. *)
Example accented_password_is_too_short :
  let pw := e_acute ++ e_acute ++ e_acute ++ e_acute ++ e_acute in
  let s := run initial
               [WalletChanged None false; ClickTrigger; ClickGenerateNew;
                ChangePassword pw] in
  String.length pw = 10%nat
  /\ JS.utf16_length pw = 5%nat
  /\ password s = pw
  /\ calls (dispatch s EnterInGenerateForm) = []
  /\ error (dispatch s EnterInGenerateForm)
     = Some "Password must be at least 8 characters".
Proof. cbv zeta. repeat split; vm_compute; reflexivity. Qed.

(** Whatever the user does, by button or by the Enter key, and however the
    awaited calls settle: the dropdown never asks the provider to generate
    or import a wallet with a password whose length, counted as
    [password.length] counts it, is below 8, never imports an empty private
    key, and never unlocks with an empty password. *)
Theorem dropdown_calls_are_well_formed (es : list Event) :
  Forall well_formed (calls (run initial es)).
Proof.
  assert (G : forall s, Forall well_formed (calls s) ->
                        Forall well_formed (calls (run s es))).
  { induction es as [ | e es IH]; intros s Hs; cbn; trivial.
    apply IH. destruct (dispatch_calls s e) as [-> | (op & -> & Hop)]; trivial.
    now constructor. }
  apply G. constructor.
Qed.





(** What a handler of the dropdown observes of an awaited operation. *)
Definition seen {A : Type} (c : WalletProvider.Completion A) : Outcome :=
  match c with
  | WalletProvider.Throws e => Some e
  | WalletProvider.RefreshesAndReturns _ => None
  end.

(** A lock that the backend refuses goes unreported.  [lock] does not look
    at the response, so an answer that is not ok counts as success, and
    [handleLock] has no [catch], so even a rejected request leaves the
    dropdown's error as it was; an approval refused with the same answer
    is reported, with the server's [detail] or "Failed to approve
    contracts". *)
Theorem refused_lock_goes_unreported
    (locking approving : State) (post : WalletProvider.PostResponse)
    (detail : option string) :
  existsb (kind_eqb Locking) (pending locking) = true ->
  existsb (kind_eqb Approving) (pending approving) = true ->
  seen (WalletProvider.lock (WalletProvider.PostNotOk detail)) = None
  /\ error (dispatch locking
              (Settled Locking (seen (WalletProvider.lock post))))
     = error locking
  /\ processing (dispatch locking
                   (Settled Locking (seen (WalletProvider.lock post))))
     = false
  /\ error (dispatch approving
              (Settled Approving
                 (seen (WalletProvider.approveContracts
                          (WalletProvider.PostNotOk detail)))))
     = Some (BuyPairModal.detail_or "Failed to approve contracts" detail).
Proof.
  intros L A. cbn [dispatch]. unfold when. rewrite L, A.
  repeat split; destruct post; reflexivity.
Qed.

Lemma refused_lock_goes_unreported_witness :
  let opened := run initial
                    [WalletChanged (Some (sample_wallet true)) false;
                     ClickTrigger] in
  error (dispatch (dispatch opened ClickLock)
           (Settled Locking
              (seen (WalletProvider.lock (WalletProvider.PostNotOk None)))))
  = None
  /\ error (dispatch (dispatch opened ClickApprove)
              (Settled Approving
                 (seen (WalletProvider.approveContracts
                          (WalletProvider.PostNotOk None)))))
     = Some "Failed to approve contracts".
Proof.
  cbv zeta.
  destruct (refused_lock_goes_unreported
              (dispatch (run initial
                             [WalletChanged (Some (sample_wallet true)) false;
                              ClickTrigger]) ClickLock)
              (dispatch (run initial
                             [WalletChanged (Some (sample_wallet true)) false;
                              ClickTrigger]) ClickApprove)
              (WalletProvider.PostNotOk None) None) as (_ & E & _ & F);
    [vm_compute; reflexivity | vm_compute; reflexivity | ].
  split; [rewrite E; vm_compute; reflexivity | exact F].
Defined.

Lemma length_append (a b : string) :
  String.length (a ++ b) = (String.length a + String.length b)%nat.
Proof. induction a as [ | c a IH]; cbn; auto. Qed.

Lemma length_substring (s : string) (n m : nat) :
  String.length (String.substring n m s) = Nat.min m (String.length s - n).
Proof.
  revert n m. induction s as [ | c s IH]; intros n m.
  - destruct n, m; reflexivity.
  - destruct n as [ | n].
    + destruct m as [ | m]; [reflexivity | ].
      cbn [String.substring String.length]. rewrite IH. lia.
    + cbn [String.substring String.length]. rewrite IH. lia.
Qed.

(** The address shown in the trigger button: for an address of [n]
    characters it has [min 6 n + 3 + min 4 n] characters, so 13 for every
    address of at least 6, and for one shorter than 10 the head and the
    tail shown overlap. *)
Theorem truncated_address_length
    (s : State) (st : BuyPairModal.WalletStatus) (a : string) :
  status s = Some st -> BuyPairModal.address st = Some a -> a <> "" ->
  exists t,
    truncatedAddress s = Some t
    /\ String.length t
       = (Nat.min 6 (String.length a) + 3 + Nat.min 4 (String.length a))%nat.
Proof.
  intros Hs Ha Hn. unfold truncatedAddress. rewrite Hs, Ha.
  apply String.eqb_neq in Hn. rewrite Hn.
  eexists. split; [reflexivity | ].
  rewrite !length_append. unfold slice, slice_last.
  rewrite !length_substring. cbn [String.length]. lia.
Qed.

Lemma truncated_address_length_witness :
  exists t,
    truncatedAddress
      (run initial [WalletChanged (Some (sample_wallet true)) false]) = Some t
    /\ String.length t = 13%nat.
Proof.
  destruct (truncated_address_length
              (run initial [WalletChanged (Some (sample_wallet true)) false])
              (sample_wallet true)
              "0x51aB00000000000000000000000000000000c0De")
    as (t & T & L); [reflexivity | reflexivity | discriminate | ].
  exists t. split; [exact T | exact L].
Defined.

End WalletDropdownFacts.

(* ================================================================= *)
(** * Properties of the trader monitor *)

Section TraderMonitorFacts.
Import JS TraderMonitor.
Local Open Scope string_scope.

Variable World : Type.
Variable profile_of : string -> World -> ProfileFetch * World.
Variable fills_of : string -> World -> FillsFetch * World.
Variable window : World -> string * string.

Let scan_with := scan World profile_of fills_of window.

(** How one trader is listed at [nowIso], by the answer to the profile
    request and, when a fills request was made, the answer to it.  Without
    a profile, or with a profile that has no wallet or an empty one, no
    fills are asked for and the trader is listed with no wallet and zeros.
    With a wallet the trader is listed with it, and with zeros when the
    fills request is not answered ok, otherwise with the totals of the
    fills. *)
Variant Listing (nowIso : string) (t : TrackedTrader)
  : ProfileFetch -> option FillsFetch -> TraderSnapshot -> Prop :=
  | listed_without_profile :
      Listing nowIso t ProfileNotOk None
        {| snapshot_handle := handle t; snapshot_bucket := bucket t;
           snapshot_wallet := None;
           pnl7d := of_Z 0; volume7d := of_Z 0; winRate7d := of_Z 0;
           timestamp := nowIso |}
  | listed_without_wallet (wallet created : option string) :
      wallet = None \/ wallet = Some "" ->
      Listing nowIso t (ProfileOk wallet created) None
        {| snapshot_handle := handle t; snapshot_bucket := bucket t;
           snapshot_wallet := None;
           pnl7d := of_Z 0; volume7d := of_Z 0; winRate7d := of_Z 0;
           timestamp := nowIso |}
  | listed_without_fills (a : string) (created : option string) :
      a <> "" ->
      Listing nowIso t (ProfileOk (Some a) created) (Some FillsNotOk)
        {| snapshot_handle := handle t; snapshot_bucket := bucket t;
           snapshot_wallet := Some a;
           pnl7d := of_Z 0; volume7d := of_Z 0; winRate7d := of_Z 0;
           timestamp := nowIso |}
  | listed_with_fills (a : string) (created : option string)
                      (fills : list Fill) :
      a <> "" ->
      Listing nowIso t (ProfileOk (Some a) created) (Some (FillsOk fills))
        {| snapshot_handle := handle t; snapshot_bucket := bucket t;
           snapshot_wallet := Some a;
           pnl7d := realized (totals fills);
           volume7d := volume (totals fills);
           winRate7d :=
             if Nat.ltb 0 (trades (totals fills))
             then div (of_Z (Z.of_nat (wins (totals fills))))
                      (of_Z (Z.of_nat (trades (totals fills))))
             else of_Z 0;
           timestamp := nowIso |}.

(** A scan of the traders [ts] from the world [w]: the snapshots made, the
    requests sent and the world left.  Each trader costs one profile
    request, and one fills request right after it when the profile has a
    wallet. *)
Inductive Scan (nowIso : string)
  : World -> list TrackedTrader -> list TraderSnapshot -> list Call -> World
    -> Prop :=
  | scan_done (w : World) : Scan nowIso w [] [] [] w
  | scan_listed (w w1 w' : World) (t : TrackedTrader)
                (rest : list TrackedTrader) (pr : ProfileFetch)
                (snap : TraderSnapshot) (snaps : list TraderSnapshot)
                (calls : list Call) :
      profile_of (handle t) w = (pr, w1) ->
      Listing nowIso t pr None snap ->
      Scan nowIso w1 rest snaps calls w' ->
      Scan nowIso w (t :: rest) (snap :: snaps)
           (GetProfile (handle t) :: calls) w'
  | scan_looked_up (w w1 w2 w' : World) (t : TrackedTrader)
                   (rest : list TrackedTrader) (a : string)
                   (created : option string) (fr : FillsFetch)
                   (snap : TraderSnapshot) (snaps : list TraderSnapshot)
                   (calls : list Call) :
      profile_of (handle t) w = (ProfileOk (Some a) created, w1) ->
      fills_of a w1 = (fr, w2) ->
      Listing nowIso t (ProfileOk (Some a) created) (Some fr) snap ->
      Scan nowIso w2 rest snaps calls w' ->
      Scan nowIso w (t :: rest) (snap :: snaps)
           (GetProfile (handle t) :: GetFills a :: calls) w'.

Lemma Scan_lists_all (nowIso : string) (w w' : World)
    (ts : list TrackedTrader) (out : list TraderSnapshot) (calls : list Call) :
  Scan nowIso w ts out calls w' ->
  map snapshot_handle out = map handle ts
  /\ map snapshot_bucket out = map bucket ts
  /\ Forall (fun snap => timestamp snap = nowIso) out.
Proof.
  induction 1 as [ | w w1 w' t rest pr snap snaps calls _ L _ (IH1 & IH2 & IH3)
                   | w w1 w2 w' t rest a created fr snap snaps calls _ _ L _
                       (IH1 & IH2 & IH3)].
  - repeat split. constructor.
  - cbn [map]. rewrite IH1, IH2.
    destruct L; repeat split; constructor; trivial.
  - cbn [map]. rewrite IH1, IH2.
    destruct L; repeat split; constructor; trivial.
Qed.

(** A scan that returns has scanned: what it appends to [results] and to
    the log is a [Scan] from the world it started in. *)
Lemma scan_appends (ts : list TrackedTrader) (nowIso : string) :
  forall results w log out w' calls,
    scan_with ts nowIso results (w, log) = (inr out, (w', calls)) ->
    exists added asked,
      out = (results ++ added)%list
      /\ calls = (log ++ asked)%list
      /\ Scan nowIso w ts added asked w'.
Proof.
  induction ts as [ | t rest IH]; intros results w log out w' calls H.
  - cbn in H. injection H as <- <- <-. exists [], [].
    rewrite !app_nil_r. repeat split. constructor.
  - unfold scan_with in H. cbn [scan fst snd] in H.
    destruct (profile_of (handle t) w) as [pr w1] eqn:P.
    destruct pr as [e | | wallet created]; cbn in H.
    + discriminate.
    + apply IH in H. destruct H as (added & asked & -> & -> & S).
      eexists (_ :: added), (_ :: asked). rewrite <- !app_assoc. cbn [app].
      repeat split. eapply scan_listed; [exact P | constructor | exact S].
    + destruct wallet as [a | ]; cbn in H.
      * destruct (String.eqb a "") eqn:A.
        -- apply String.eqb_eq in A. subst a.
           apply IH in H. destruct H as (added & asked & -> & -> & S).
           eexists (_ :: added), (_ :: asked). rewrite <- !app_assoc.
           cbn [app]. repeat split.
           eapply scan_listed; [exact P | constructor; now right | exact S].
        -- apply String.eqb_neq in A.
           destruct (fills_of a w1) as [fr w2] eqn:F.
           destruct fr as [e | | fills]; cbn in H.
           ++ discriminate.
           ++ apply IH in H. destruct H as (added & asked & -> & -> & S).
              eexists (_ :: added), (_ :: _ :: asked). rewrite <- !app_assoc.
              cbn [app]. repeat split.
              eapply scan_looked_up;
                [exact P | exact F | now constructor | exact S].
           ++ apply IH in H. destruct H as (added & asked & -> & -> & S).
              eexists (_ :: added), (_ :: _ :: asked). rewrite <- !app_assoc.
              cbn [app]. repeat split.
              eapply scan_looked_up;
                [exact P | exact F | now constructor | exact S].
      * apply IH in H. destruct H as (added & asked & -> & -> & S).
        eexists (_ :: added), (_ :: asked). rewrite <- !app_assoc. cbn [app].
        repeat split.
        eapply scan_listed; [exact P | constructor; now left | exact S].
Qed.

(** As long as no request throws, the scan returns. *)
Lemma scan_returns (ts : list TrackedTrader) (nowIso : string) :
  (forall h w e, fst (profile_of h w) <> ProfileThrew e) ->
  (forall a w e, fst (fills_of a w) <> FillsThrew e) ->
  forall results st, exists out st', scan_with ts nowIso results st = (inr out, st').
Proof.
  intros NP NF. induction ts as [ | t rest IH]; intros results st.
  - now exists results, st.
  - unfold scan_with. cbn [scan].
    pose proof (NP (handle t) (fst st)) as N.
    destruct (profile_of (handle t) (fst st)) as [pr w1].
    destruct pr as [e | | wallet created]; cbn in *.
    + now contradiction (N e).
    + apply IH.
    + destruct wallet as [a | ]; cbn; [ | apply IH].
      destruct (String.eqb a ""); [apply IH | ].
      pose proof (NF a w1) as N'.
      destruct (fills_of a w1) as [fr w2].
      destruct fr as [e | | fills]; cbn in *.
      * now contradiction (N' e).
      * apply IH.
      * apply IH.
Qed.

(** The scan lists every trader of the list it goes through
    ([scanTrackedTraders] goes through [TRACKED_TRADERS]), in order,
    duplicates included.  A scan that returns has made, for each trader in
    turn, one profile request and, when the profile has a wallet, one
    fills request with it; a trader without a profile, or with a profile
    that has no wallet, is listed with no wallet and zeros, not left out; a
    trader with a wallet is listed with it, with the totals of the fills
    delivered, or zeros when the fills request is not answered ok.  And as
    long as no request throws, the scan does return. *)
Theorem scan_lists_every_tracked_trader
    (ts : list TrackedTrader) (nowIso : string) (w : World) :
  (forall out w' calls,
     scan World profile_of fills_of window ts nowIso [] (w, [])
     = (inr out, (w', calls)) ->
     Scan nowIso w ts out calls w'
     /\ List.length out = List.length ts
     /\ map snapshot_handle out = map handle ts
     /\ map snapshot_bucket out = map bucket ts
     /\ Forall (fun snap => timestamp snap = nowIso) out)
  /\ ((forall h w0 e, fst (profile_of h w0) <> ProfileThrew e) ->
      (forall a w0 e, fst (fills_of a w0) <> FillsThrew e) ->
      exists out st',
        scan World profile_of fills_of window ts nowIso [] (w, [])
        = (inr out, st')).
Proof.
  split.
  - intros out w' calls H. apply scan_appends in H.
    destruct H as (added & asked & -> & -> & S). cbn [app].
    destruct (Scan_lists_all _ _ _ _ _ _ S) as (Hh & Hb & Ht).
    split; [exact S | ]. split; [ | now repeat split].
    rewrite <- (length_map snapshot_handle), Hh. apply length_map.
  - intros NP NF. now apply scan_returns.
Qed.

End TraderMonitorFacts.

(** A world in which the profile of "xmgnr" has a wallet with one winning
    fill, the profile of "sorokx" has none and no other profile is found:
    all twenty tracked traders are listed, these two as their answers
    say. *)
Lemma scan_lists_every_tracked_trader_witness :
  let profile_of (h : string) (w : unit) :=
    (if String.eqb h "xmgnr"
     then TraderMonitor.ProfileOk (Some "0xabc"%string) None
     else if String.eqb h "sorokx"
          then TraderMonitor.ProfileOk None None
          else TraderMonitor.ProfileNotOk, w) in
  let fills_of (a : string) (w : unit) :=
    (TraderMonitor.FillsOk
       [{| TraderMonitor.size := Some (JS.of_Z 4);
           TraderMonitor.price := Some (JS.of_Z 2);
           TraderMonitor.fill_pnl := Some (JS.of_Z 3);
           TraderMonitor.isWin := Some true |}], w) in
  let window (w : unit) :=
    ("2026-01-01T00:00:00.000Z", "2026-01-08T00:00:00.000Z")%string in
  exists first rest st',
    TraderMonitor.scanTrackedTraders unit profile_of fills_of window
      "2026-01-08T00:00:00.000Z"%string tt = (inr (first :: rest), st')
    /\ List.length (first :: rest) = 20%nat
    /\ TraderMonitor.snapshot_wallet first = Some "0xabc"%string
    /\ TraderMonitor.pnl7d first = JS.of_Z 3
    /\ TraderMonitor.volume7d first = JS.of_Z 8
    /\ TraderMonitor.winRate7d first = JS.of_Z 1.
Proof.
  cbv zeta. eexists _, _, (_, _).
  split; [vm_compute; reflexivity | ].
  split.
  - eapply (scan_lists_every_tracked_trader unit
              (fun h w =>
                 (if String.eqb h "xmgnr"
                  then TraderMonitor.ProfileOk (Some "0xabc"%string) None
                  else if String.eqb h "sorokx"
                       then TraderMonitor.ProfileOk None None
                       else TraderMonitor.ProfileNotOk, w))
              (fun a w =>
                 (TraderMonitor.FillsOk
                    [{| TraderMonitor.size := Some (JS.of_Z 4);
                        TraderMonitor.price := Some (JS.of_Z 2);
                        TraderMonitor.fill_pnl := Some (JS.of_Z 3);
                        TraderMonitor.isWin := Some true |}], w))
              (fun _ =>
                 ("2026-01-01T00:00:00.000Z", "2026-01-08T00:00:00.000Z")%string)
              TraderMonitor.TRACKED_TRADERS
              "2026-01-08T00:00:00.000Z"%string tt).
    vm_compute. reflexivity.
  - repeat split; vm_compute; reflexivity.
Defined.

(** No data and no answer look the same.  A window computed from an empty
    list of fills equals the window returned for a response that is not
    ok: all figures are zero, and the win rate in particular is 0, the
    division by the number of trades being skipped. *)
Theorem empty_window_equals_failed_window (from_iso to_iso : string) :
  TraderMonitor.fetchRecentPnLForWallet (TraderMonitor.FillsOk []) from_iso to_iso
  = TraderMonitor.fetchRecentPnLForWallet TraderMonitor.FillsNotOk from_iso to_iso
  /\ forall fills window,
       TraderMonitor.fetchRecentPnLForWallet (TraderMonitor.FillsOk fills)
         from_iso to_iso = inr window ->
       TraderMonitor.trades (TraderMonitor.totals fills) = List.length fills
       /\ (fills = [] -> TraderMonitor.winRate window = JS.pos_zero)
       /\ (TraderMonitor.wins (TraderMonitor.totals fills)
           <= TraderMonitor.trades (TraderMonitor.totals fills))%nat.
Proof.
  split; [reflexivity | ].
  intros fills window H.
  assert (G : forall fs t,
            TraderMonitor.trades (fold_left TraderMonitor.count_fill fs t)
            = (TraderMonitor.trades t + List.length fs)%nat
            /\ ((TraderMonitor.wins t <= TraderMonitor.trades t)%nat ->
                (TraderMonitor.wins (fold_left TraderMonitor.count_fill fs t)
                 <= TraderMonitor.trades
                      (fold_left TraderMonitor.count_fill fs t))%nat)).
  { induction fs as [ | f fs IH]; intros t; cbn [fold_left List.length].
    - split; [lia | trivial].
    - destruct (IH (TraderMonitor.count_fill t f)) as (A & B). split.
      + rewrite A. cbn. lia.
      + intros L. apply B. cbn.
        destruct (TraderMonitor.bool_or_false (TraderMonitor.isWin f)); lia. }
  unfold TraderMonitor.totals.
  match goal with |- context [fold_left _ fills ?t0] =>
    destruct (G fills t0) as (A & B) end.
  repeat split.
  - rewrite A. reflexivity.
  - intros ->. cbn in H. injection H as <-. reflexivity.
  - apply B. cbn. lia.
Qed.

Lemma empty_window_equals_failed_window_witness :
  TraderMonitor.fetchRecentPnLForWallet (TraderMonitor.FillsOk []) "a" "b"
  = TraderMonitor.fetchRecentPnLForWallet TraderMonitor.FillsNotOk "a" "b".
Proof.
  destruct (empty_window_equals_failed_window "a" "b") as (E & _). exact E.
Defined.
